(* ===== verification/_CoqProject ===== *)
-Q . S2P
Prelude.v
Json.v
JsonText.v
Text.v
Http.v
Paging.v
Playlists.v
Settings.v
MainMenu.v
MenuLoop.v
