(* ===== verification/Prelude.v ===== *)
(** * Verification of spotify-qt: the playlist endpoints and the main menu

    ** The program

    The repository is a Qt desktop client of the Spotify Web API.  The
    sources under src/ are two files:
    - src/lib/src/spotifyapi/playlists.cpp, eight members of
      [lib::spt::api] that turn a call (create, list, fetch, edit a
      playlist; list, add, remove its tracks) into one HTTP request against
      a fixed endpoint, with a JSON body built with nlohmann::json, and hand
      the reply to a callback; the collection endpoints follow the
      service's ["next"] links page by page ([get_items]);
    - src/src/menu/mainmenu.cpp, the [MainMenu] widget: its constructor
      checks for a newer release and lays out the entries; the "Device"
      submenu refreshes itself from the Web API each time it opens and sends
      "set device" when an entry is clicked, reverting the entry when the
      call fails; the "Log out" entry asks whether to clear everything or
      only the login, clears and saves the settings and quits.
    The two parts meet through the client object ([spt::Spotify], whose
    [devices] and [setDevice] calls the menu makes) and through the
    settings object ([lib::settings]).  Everything runs on the Qt event loop:
    user actions and network replies are handled one at a time, and replies
    may arrive in any order.

    ** The library (files in dependency order)

    - [Prelude] (this file): the error type [fallible] with its bind
      notation in [spt_scope], string lemmas, the reflexive-transitive
      closure [star] with rule induction ([star_invariant]), the Ltac
      [string_eqb_case] and [rewrite_eqb_neq], and the hint databases [spt]
      and [spt_rw].
    - [Json]: nlohmann::json values; objects as ordered maps ([std::map]:
      keys kept strictly increasing under [String.compare]) with [Obj.find],
      [Obj.insert] ([j[k] = v]), [Obj.emplace] and [Obj.of_list]
      (initializer lists, first occurrence wins); [index_set] with the
      library's type error; [lib::json::set], which assigns only present
      optionals; the interface [ToJson] for C++ to JSON conversions.
      [wf], the well-formedness of a value (every object an ordered map, at
      every depth), and [Obj.of_assignments], an object built by assigning
      its members one after the other.  Proved: insertion keeps the order
      invariant, lookup after insertion, [of_list_spec], [set_object],
      [set_wf] ([lib::json::set] keeps a value well formed) and
      [of_assignments_sorted].
    - [JsonText]: the compact text [json::dump()] writes ([escape_char],
      [dump_string], [dump_int], [dump]) and a reader of that text
      ([read_string], [read_number], [parse_value] and its mutual
      companions, [parse]) that builds objects by assigning members, as
      nlohmann's parser does.  Proved: [parse_dump], every well-formed value
      reads back from its text, by induction on the reader's fuel over a
      size measure, with [size_dump] showing that the text's length is
      enough fuel.
    - [Text]: [lib::fmt::format] (each argument replaces the first ["{}"] of
      the text produced so far), [lib::strings::join], [lib::strings::remove],
      and [split], the decoder of a comma-separated query parameter.  Proved:
      [format_single], [format_pair], [remove_prefix], and the round trip
      [split_join].
    - [Http]: requests ([verb], [request], [get], [post], [post_empty],
      [put], [del]); the service as the interface [Transport]; [get_items],
      the page-following loop, with fuel; the pagination cursor
      [lib::spt::pagination] ([cursor], [cursor_next], [cursor_run]); the
      promise of a paginated endpoint as the class [PagedSource], with
      [serve_pages_source], a service made of distinct pages, as an
      instance.  Proved against the interface: [get_items_complete] (enough
      fuel delivers every page's items in order), [get_items_cycle] (a page
      that links to itself is never finished), [cursor_run_get_items] (the
      cursor computes what the loop computes), [get_items_serves_to] (a
      chain of pages costs one fetch each) and [get_items_failure] (an error
      reply or a page without ["items"], [page_failure], ends the loop with
      that error).
    - [Paging]: the Web API's side of paging, a model of the service and
      not of the code: [offset_pages] (defined with Equations by
      well-founded recursion on the number of items left) splits a
      collection into pages of [page_limit] items under the URLs of their
      offsets, and [page_count n] is their number.  Proved: the pages
      concatenate to the collection, are [page_count n] many, bounded, and
      have distinct URLs, so [offset_source] keeps the [PagedSource]
      promise; [get_items] on it finishes after exactly [page_count n]
      fetches ([get_items_offset], [get_items_offset_short]).
    - [Playlists]: module [Api], one definition per function of
      playlists.cpp, each the request it sends or the [get_items] loop it
      runs; [Spt] holds the records [playlist] and [playlist_details].
      Proved: the bodies and URLs of the requests (C1, C2, C3, C12), the
      removal body read back from its text [body_text] (C1) and the added
      URIs from the query (C3); the completeness of the collection
      endpoints (C9); the equivalence of the two [playlist_tracks]
      overloads (C15); three behaviours the code has and the spec does not
      mention: a page that links to itself is never finished (C16), a
      playlist id that contains ["{}"] receives the joined URIs (C17), and
      an empty URI list is still sent (C18); against the service's offset
      paging, at the literal URLs the code builds, that [playlists] needs
      one request per page (C19) and [playlist_tracks] finishes after
      exactly [page_count n] of them (C20); and that a failing page ends
      [playlists] with its error (C23).
    - [Settings]: the members of [lib::settings] the menu calls, as the
      interface [SettingsOps] with its contract [SettingsLaws]; the record
      [lib_settings] (settings in memory and on disk) is an instance.
    - [MainMenu]: the state of the menu ([menu_state]: update notice,
      device-submenu actions with identities, settings, status bar,
      message boxes, quit flag, Web API calls awaiting their callbacks, and
      the ghost field [shown], the last devices reply the submenu was
      built from, which the code does not store but which states what the
      submenu should show) and one definition per handler ([main_menu] for
      the constructor, [refresh_devices], [on_devices] for the devices
      callback, with its clearing loop [clear_actions] over the copy
      [actions()] returns and the entries it appends [new_entries],
      [device_selected], [trigger] for Qt's click handling, [on_set_device]
      for the set-device callback, [log_out] with its box [log_out_box]
      and [clicked_result], [quit_app], [settings_edited], [about_clicked]).
      [menu_shows] relates a reply to the entries it should produce (one
      mirroring entry per device, or one disabled placeholder).  The
      menu's theorems use only [SettingsLaws].  Proved, of each handler on
      its own: the confirmed log-out (C4) and the roles of the box's
      buttons (C22); the two callbacks (C7, C8), the devices callback
      being equivalent to replacing the submenu by the new entries,
      whatever it held ([replace_devices], C26); the update check (C13,
      C14) and the release page the update notice opens (C21).
    - [MenuLoop]: the event loop [step], an inductive relation: one user
      action or one callback of a pending call at a time, in any order,
      and nothing once the application quit; [reachable] states and rule
      induction over them ([reachable_ind]).  [trigger] is not gated on the
      submenu being open: the relation allows every click Qt allows and
      more, so the invariants proved over it hold of the program.  Proved:
      in every reachable state the submenu shows exactly the recorded
      reply [shown] (C5); that a click only ever sends [setDevice] for a
      device of that reply that was inactive (C6); the state after log-out
      (C10); that the status bar only ever reports a failed [setDevice]
      (C25); on the order of replies, that a late set-device reply cannot
      touch a rebuilt submenu (C11) and that the two kinds of reply commute
      (C24); that from every running state a refresh brings the submenu up
      to date (C27, liveness); and that a successful switch of device
      through the submenu leaves the previously active entry checked and
      disabled beside the new one (C28).

    ** Modelling choices

    - Strings are [String.string]; std::string comparison, byte-wise, is
      [String.compare].  C++ [int] positions are [Z]; the endpoint passes
      them through unchanged, so no width is involved.
    - A function that sends a request is modelled by the request; the
      callback is the consumer of the [fallible json] reply.
    - [get_items] and [cursor_run] take fuel: one unit per page.  The
      program's loop is unbounded; [get_items_complete] shows that fuel equal
      to the number of pages suffices, and [get_items_cycle] that no fuel
      suffices when a page links back to itself; [get_items_fuel_mono]
      that more fuel never changes a result, so the bound only stands for
      the loop not having finished yet.  Against the offset-paged
      service of [Paging], [page_count n = max 1 (ceil (n / 50))] units are
      enough and necessary.  The JSON reader's fuel is the length of the
      text, enough since each step consumes a character ([size_dump]).
    - In the menu, each [QAction] carries an identity ([act_id]), because
      the set-device callback captures a pointer to one action; when the
      submenu has been rebuilt that action is no longer shown, and the model
      updates only the actions shown.
    - Qt's own behaviour that the handlers rely on is written out:
      triggering a checkable action toggles it before [triggered] is
      emitted ([toggle]), [setChecked] has no effect on a non-checkable
      action, and a disabled action ignores clicks.
    - The code outside src/ (nlohmann::json, [lib::fmt], [lib::strings],
      the HTTP members of [lib::spt::api], [lib::spt::pagination],
      [lib::settings], the Qt classes) is modelled from its documented
      contract.

    ** Not modelled

    The HTTP transport itself, JSON parsing of replies into the typed
    records ([lib::spt::playlist], [lib::spt::track]), the parts of JSON
    text the bodies never contain (floating-point numbers, whitespace,
    UTF-8 validation, [\u] escapes above U+00FF), the icons, key sequences
    and texts of entries, the settings dialog's contents (the model lets it
    replace the settings by any value), the developer menu's contents, and
    the browser that opens the release page (the model records the URL).
    Every statement of the two files under src/ is translated; the lines
    the definitions do not cover are includes, comments and blank lines.
    The settings dialog, the developer menu, [MainWindow] and
    [Utils::openUrl] are not under src/ and are reached only through the
    menu's calls, which the model records. *)

From Stdlib Require Import String List Lia ZArith Bool.
Import ListNotations.
Open Scope string_scope.

(** ** Notations: the error monad used for fallible code paths *)

Declare Scope spt_scope.
Delimit Scope spt_scope with spt.

(** A fallible computation: [inl msg] is an error string as the program
    surfaces it, [inr x] a result. *)
Definition fallible (A : Type) : Type := sum string A.

Definition bind_fallible {A B} (c : fallible A) (k : A -> fallible B) : fallible B :=
  match c with
  | inl e => inl e
  | inr x => k x
  end.

Notation "x <- c ;; k" := (bind_fallible c (fun x => k))
  (at level 61, c at next level, right associativity) : spt_scope.

(** ** Strings *)

Lemma string_app_assoc (a b c : string) : a ++ (b ++ c) = (a ++ b) ++ c.
Proof. induction a as [|x a IH]; simpl; [reflexivity | now rewrite IH]. Qed.

Lemma string_app_nil_r (a : string) : a ++ "" = a.
Proof. induction a as [|x a IH]; simpl; [reflexivity | now rewrite IH]. Qed.

Lemma string_app_length (a b : string) :
  String.length (a ++ b) = String.length a + String.length b.
Proof. induction a as [|x a IH]; simpl; lia. Qed.

Lemma string_app_inv_l (p a b : string) : p ++ a = p ++ b -> a = b.
Proof. induction p as [|x p IH]; simpl; [auto | intros H; injection H; auto]. Qed.

(** [eqb] on strings, turned into equalities. *)
Lemma string_eqb_sym (a b : string) : String.eqb a b = String.eqb b a.
Proof.
  destruct (String.eqb_spec a b), (String.eqb_spec b a); congruence.
Qed.

Lemma string_compare_refl (s : string) : String.compare s s = Eq.
Proof.
  induction s as [|c s IH]; simpl; [reflexivity|].
  unfold Ascii.compare. now rewrite BinNat.N.compare_refl.
Qed.

(** Rewrite every [String.eqb k s] of the goal whose operands a hypothesis
    says are different. *)
Ltac rewrite_eqb_neq :=
  repeat match goal with
         | H : ?k <> ?s |- context [String.eqb ?k ?s] =>
             rewrite (proj2 (String.eqb_neq k s) H)
         | H : ?k <> ?s |- context [String.eqb ?s ?k] =>
             rewrite (proj2 (String.eqb_neq s k) (not_eq_sym H))
         end.

Lemma string_compare_trans_lt (a b c : string) :
  String.compare a b = Lt -> String.compare b c = Lt -> String.compare a c = Lt.
Proof.
  revert b c. induction a as [|x a IH]; intros [|y b] [|z c]; simpl; try discriminate; auto.
  unfold Ascii.compare.
  destruct (BinNat.N.compare_spec (Ascii.N_of_ascii x) (Ascii.N_of_ascii y)) as [Hxy|Hxy|Hxy];
  destruct (BinNat.N.compare_spec (Ascii.N_of_ascii y) (Ascii.N_of_ascii z)) as [Hyz|Hyz|Hyz];
  intros H1 H2; try discriminate.
  - rewrite Hxy, Hyz, BinNat.N.compare_refl. eauto.
  - rewrite Hxy. now rewrite (proj2 (BinNat.N.compare_lt_iff _ _) Hyz).
  - rewrite <- Hyz. now rewrite (proj2 (BinNat.N.compare_lt_iff _ _) Hxy).
  - rewrite (proj2 (BinNat.N.compare_lt_iff _ _) (BinNat.N.lt_trans _ _ _ Hxy Hyz)).
    reflexivity.
Qed.

Lemma string_ltb_trans (a b c : string) :
  String.ltb a b = true -> String.ltb b c = true -> String.ltb a c = true.
Proof.
  unfold String.ltb.
  destruct (String.compare a b) eqn:E1; try discriminate.
  destruct (String.compare b c) eqn:E2; try discriminate.
  now rewrite (string_compare_trans_lt a b c E1 E2).
Qed.

Ltac string_eqb_case a b :=
  let E := fresh "E" in
  destruct (String.eqb_spec a b) as [E|E]; [subst|].

(** ** Lists *)

Lemma Forall2_nth_error_r {A B} (R : A -> B -> Prop) l1 l2 i b :
  Forall2 R l1 l2 -> nth_error l2 i = Some b -> exists a, nth_error l1 i = Some a /\ R a b.
Proof.
  intros H. revert i. induction H as [|x y l1 l2 Hxy _ IH]; intros [|i] Hi;
    simpl in *; try discriminate.
  - injection Hi as <-. eauto.
  - now apply IH.
Qed.

(** ** Sequences of transitions *)

Section Star.
Context {A : Type} (R : A -> A -> Prop).

(** Zero or more transitions. *)
Inductive star : A -> A -> Prop :=
| star_refl a : star a a
| star_step a b c : R a b -> star b c -> star a c.

Lemma star_one a b : R a b -> star a b.
Proof. intros H. eapply star_step; [exact H | apply star_refl]. Qed.

Lemma star_trans a b c : star a b -> star b c -> star a c.
Proof. induction 1; intros; [assumption | eapply star_step; eauto]. Qed.

Lemma star_right a b c : star a b -> R b c -> star a c.
Proof. intros H1 H2. eapply star_trans; [exact H1 | now apply star_one]. Qed.

(** Rule induction: a property of the start that every transition keeps
    holds all along. *)
Lemma star_invariant (P : A -> Prop) :
  (forall a b, P a -> R a b -> P b) -> forall a b, star a b -> P a -> P b.
Proof. intros Hstep a b H. induction H; eauto. Qed.

End Star.

(** ** Hint database of the development *)

Create HintDb spt discriminated.
Create Rewrite HintDb spt_rw.
#[export] Hint Rewrite string_app_nil_r string_app_length : spt_rw.
#[export] Hint Resolve string_app_inv_l : spt.
#[export] Hint Constructors star : spt.
#[export] Hint Resolve star_one star_trans star_right : spt.
