(* ===== verification/Json.v ===== *)
(** * JSON values as the program's JSON library (nlohmann::json) keeps them

    The playlist endpoints build their request bodies with [nlohmann::json]
    and [lib::json::set]; this file models the part of that library they use:
    values, objects as ordered maps from string keys ([std::map], ordered by
    byte-wise string comparison, which is [String.compare]), key assignment
    ([j[key] = v]), construction from an initializer list (which uses
    [emplace], so the first occurrence of a key wins), and [lib::json::set],
    which assigns a key only when an optional value is present.  None of this
    code is under src/: it is modelled from the library's documented
    behaviour. *)

From Stdlib Require Import String List Lia ZArith Bool.
From S2P Require Import Prelude.
Import ListNotations.
Open Scope string_scope.

#[warnings="-register-all"]
Inductive json : Type :=
| JNull
| JBool (b : bool)
| JInt (z : Z)
| JString (s : string)
| JArray (xs : list json)
| JObject (kvs : list (string * json)).

Module Obj.

(** [std::map::find]: the value stored under [k]. *)
Fixpoint find (k : string) (kvs : list (string * json)) : option json :=
  match kvs with
  | [] => None
  | (k', v) :: rest => if String.eqb k k' then Some v else find k rest
  end.

(** [j[k] = v] on an object: replace the value of an existing key, or
    insert the key at its place in the order. *)
Fixpoint insert (k : string) (v : json) (kvs : list (string * json))
  : list (string * json) :=
  match kvs with
  | [] => [(k, v)]
  | (k', v') :: rest =>
      match String.compare k k' with
      | Lt => (k, v) :: kvs
      | Eq => (k, v) :: rest
      | Gt => (k', v') :: insert k v rest
      end
  end.

(** [std::map::emplace]: insert only when the key is absent. *)
Definition emplace (k : string) (v : json) (kvs : list (string * json))
  : list (string * json) :=
  match find k kvs with
  | Some _ => kvs
  | None => insert k v kvs
  end.

(** An object built from an initializer list [{{k1, v1}, {k2, v2}, ...}]. *)
Definition of_list (l : list (string * json)) : list (string * json) :=
  fold_left (fun acc kv => emplace (fst kv) (snd kv) acc) l [].

Definition keys (kvs : list (string * json)) : list string := map fst kvs.

(** An object built by assigning its members in order ([result[key] =
    value] for each), as the parser does. *)
Definition of_assignments (l : list (string * json)) : list (string * json) :=
  fold_left (fun acc kv => insert (fst kv) (snd kv) acc) l [].

(** The representation invariant of [std::map]: keys strictly increasing. *)
Definition key_below (k : string) (kvs : list (string * json)) : bool :=
  match kvs with
  | [] => true
  | (k', _) :: _ => String.ltb k k'
  end.

Fixpoint sorted (kvs : list (string * json)) : bool :=
  match kvs with
  | [] => true
  | (k, _) :: rest => key_below k rest && sorted rest
  end.

End Obj.

(** The type names nlohmann::json prints in its type errors. *)
Definition type_name (j : json) : string :=
  match j with
  | JNull => "null"
  | JBool _ => "boolean"
  | JInt _ => "number"
  | JString _ => "string"
  | JArray _ => "array"
  | JObject _ => "object"
  end.

(** [j[key] = v]: a null value silently becomes an object; any other
    non-object throws [type_error.305]. *)
Definition index_set (k : string) (v : json) (j : json) : fallible json :=
  match j with
  | JNull => inr (JObject [(k, v)])
  | JObject kvs => inr (JObject (Obj.insert k v kvs))
  | _ => inl ("[json.exception.type_error.305] cannot use operator[] with a string argument with "
              ++ type_name j)
  end.

(** [j.at(key)] on an object, [j.contains(key)]. *)
Definition at_key (k : string) (j : json) : option json :=
  match j with
  | JObject kvs => Obj.find k kvs
  | _ => None
  end.

(** The conversions [nlohmann::json] applies to C++ values ([to_json]),
    as an interface with one instance per type the endpoints serialise. *)
Class ToJson (A : Type) := to_json : A -> json.

#[export] Instance ToJson_string : ToJson string := JString.
#[export] Instance ToJson_bool : ToJson bool := JBool.
#[export] Instance ToJson_Z : ToJson Z := JInt.
#[export] Instance ToJson_json : ToJson json := fun j => j.

(** [lib::json::set(json, key, value)]: assigns [json[key]] only when the
    optional [value] holds a value. *)
Definition set {A} `{ToJson A} (j : json) (k : string) (value : option A)
  : fallible json :=
  match value with
  | Some x => index_set k (to_json x) j
  | None => inr j
  end.

(** A well-formed value: every object in it, at any depth, is an ordered
    map with distinct keys, as [std::map] makes it. *)
Fixpoint wf (j : json) : bool :=
  match j with
  | JArray xs => forallb wf xs
  | JObject kvs => Obj.sorted kvs && forallb (fun kv => wf (snd kv)) kvs
  | _ => true
  end.

(** ** Ordered-map lemmas *)

Section ObjLemmas.

Lemma compare_eq_eq (k k' : string) : String.compare k k' = Eq -> k = k'.
Proof. apply String.compare_eq_iff. Qed.

Lemma compare_gt_ltb (k k' : string) : String.compare k k' = Gt -> String.ltb k' k = true.
Proof. intros H. unfold String.ltb. now rewrite String.compare_antisym, H. Qed.

Lemma compare_lt_ltb (k k' : string) : String.compare k k' = Lt -> String.ltb k k' = true.
Proof. intros H. unfold String.ltb. now rewrite H. Qed.

Lemma find_cons (k k' : string) (v : json) rest :
  Obj.find k ((k', v) :: rest) = if String.eqb k k' then Some v else Obj.find k rest.
Proof. reflexivity. Qed.

(** After [j[k] = v], the key [k] holds [v] and every other key is
    unchanged. *)
Lemma find_insert (k k' : string) (v : json) kvs :
  Obj.find k' (Obj.insert k v kvs) =
  if String.eqb k' k then Some v else Obj.find k' kvs.
Proof.
  induction kvs as [|[k0 v0] rest IH]; simpl; [reflexivity|].
  destruct (String.compare k k0) eqn:C; simpl.
  - apply compare_eq_eq in C; subst k0.
    now destruct (String.eqb k' k).
  - reflexivity.
  - rewrite IH. string_eqb_case k' k0; [|reflexivity].
    string_eqb_case k0 k; [|reflexivity].
    rewrite string_compare_refl in C; discriminate.
Qed.

Lemma key_below_insert (k0 k : string) (v : json) kvs :
  String.ltb k0 k = true -> Obj.key_below k0 kvs = true ->
  Obj.key_below k0 (Obj.insert k v kvs) = true.
Proof.
  intros Hk Hb. destruct kvs as [|[k1 v1] rest]; simpl; [exact Hk|].
  destruct (String.compare k k1); simpl; auto.
Qed.

(** The [std::map] invariant is kept by key assignment. *)
Lemma insert_sorted (k : string) (v : json) kvs :
  Obj.sorted kvs = true -> Obj.sorted (Obj.insert k v kvs) = true.
Proof.
  induction kvs as [|[k0 v0] rest IH]; simpl; [reflexivity|].
  intros [Hb Hs]%andb_prop.
  destruct (String.compare k k0) eqn:C; simpl.
  - apply compare_eq_eq in C; subst k0. now rewrite Hb, Hs.
  - rewrite (compare_lt_ltb _ _ C), Hb, Hs. reflexivity.
  - rewrite key_below_insert, IH; auto using compare_gt_ltb.
Qed.

Lemma find_emplace (k k' : string) (v : json) kvs :
  Obj.find k' (Obj.emplace k v kvs) =
  if String.eqb k' k
  then match Obj.find k kvs with Some w => Some w | None => Some v end
  else Obj.find k' kvs.
Proof.
  unfold Obj.emplace. destruct (Obj.find k kvs) eqn:F.
  - string_eqb_case k' k; auto.
  - rewrite find_insert. string_eqb_case k' k; auto.
Qed.

Lemma emplace_sorted (k : string) (v : json) kvs :
  Obj.sorted kvs = true -> Obj.sorted (Obj.emplace k v kvs) = true.
Proof.
  unfold Obj.emplace. destruct (Obj.find k kvs); auto using insert_sorted.
Qed.

Lemma of_list_acc l acc :
  Obj.sorted acc = true ->
  Obj.sorted (fold_left (fun acc kv => Obj.emplace (fst kv) (snd kv) acc) l acc) = true /\
  forall k, Obj.find k (fold_left (fun acc kv => Obj.emplace (fst kv) (snd kv) acc) l acc) =
            match Obj.find k acc with Some w => Some w | None => Obj.find k l end.
Proof.
  revert acc; induction l as [|[k0 v0] l IH]; intros acc Hs; simpl.
  - split; [exact Hs|]. intros k. now destruct (Obj.find k acc).
  - destruct (IH (Obj.emplace k0 v0 acc)) as [IH1 IH2]; auto using emplace_sorted.
    split; [exact IH1|]. intros k. rewrite IH2, find_emplace.
    string_eqb_case k k0; [|reflexivity].
    destruct (Obj.find k0 acc); reflexivity.
Qed.

End ObjLemmas.

#[export] Hint Resolve insert_sorted emplace_sorted : spt.
#[export] Hint Rewrite find_insert find_emplace : spt_rw.

(** ** Properties of the JSON operations the endpoints use *)

(** An object built from an initializer list is a well-formed ordered
    map, and looking up a key gives the value of its first occurrence in the
    list ([emplace] never overwrites). *)
Theorem of_list_spec (l : list (string * json)) :
  Obj.sorted (Obj.of_list l) = true /\
  forall k, Obj.find k (Obj.of_list l) = Obj.find k l.
Proof.
  destruct (of_list_acc l [] eq_refl) as [H1 H2]. split; [exact H1|].
  intros k. exact (H2 k).
Qed.

(** [lib::json::set] on an object: with no value the object is
    returned unchanged; with a value [x] the key holds [to_json x], every
    other key keeps its value, and the result is still a well-formed ordered
    map. *)
Theorem set_object {A} `{ToJson A} (kvs : list (string * json)) (k : string)
    (value : option A) :
  Obj.sorted kvs = true ->
  exists kvs', set (JObject kvs) k value = inr (JObject kvs') /\
    Obj.sorted kvs' = true /\
    forall k', Obj.find k' kvs' =
      match value with
      | Some x => if String.eqb k' k then Some (to_json x) else Obj.find k' kvs
      | None => Obj.find k' kvs
      end.
Proof.
  intros Hs. destruct value as [x|]; simpl.
  - eexists; split; [reflexivity|]. split; [auto with spt|].
    intros k'. apply find_insert.
  - eexists; split; [reflexivity|]. auto.
Qed.

(** ** Well-formed values *)

Section WfLemmas.

Definition values_wf (kvs : list (string * json)) : bool := forallb (fun kv => wf (snd kv)) kvs.

Lemma in_insert (k : string) (v : json) kvs kv :
  In kv (Obj.insert k v kvs) -> kv = (k, v) \/ In kv kvs.
Proof.
  induction kvs as [|[k0 v0] rest IH]; simpl; [intuition|].
  destruct (String.compare k k0); simpl; intuition.
Qed.

Lemma insert_values_wf (k : string) (v : json) kvs :
  wf v = true -> values_wf kvs = true -> values_wf (Obj.insert k v kvs) = true.
Proof.
  unfold values_wf. rewrite !forallb_forall. intros Hv Hk kv Hin.
  destruct (in_insert k v kvs kv Hin) as [-> | H]; auto.
Qed.

Lemma emplace_values_wf (k : string) (v : json) kvs :
  wf v = true -> values_wf kvs = true -> values_wf (Obj.emplace k v kvs) = true.
Proof. unfold Obj.emplace. destruct (Obj.find k kvs); auto using insert_values_wf. Qed.

Lemma of_list_values_wf (l : list (string * json)) :
  values_wf l = true -> values_wf (Obj.of_list l) = true.
Proof.
  unfold Obj.of_list. assert (H : values_wf [] = true) by reflexivity. revert H.
  generalize (@nil (string * json)). induction l as [|[k v] l IH]; intros acc Hacc Hl;
    [exact Hacc|].
  simpl in Hl. apply andb_prop in Hl as [Hv Hl]. simpl. apply IH; auto.
  now apply emplace_values_wf.
Qed.

Lemma wf_object (kvs : list (string * json)) :
  wf (JObject kvs) = Obj.sorted kvs && values_wf kvs.
Proof. reflexivity. Qed.

(** An object built from an initializer list of well-formed values is
    well formed. *)
Lemma of_list_wf (l : list (string * json)) :
  values_wf l = true -> wf (JObject (Obj.of_list l)) = true.
Proof.
  intros H. rewrite wf_object, (proj1 (of_list_spec l)). simpl. now apply of_list_values_wf.
Qed.

(** [lib::json::set] keeps a well-formed value well formed. *)
Lemma set_wf {A} `{ToJson A} (j : json) (k : string) (value : option A) j' :
  (forall x, wf (to_json x) = true) ->
  wf j = true -> set j k value = inr j' -> wf j' = true.
Proof.
  intros Hx Hw E. destruct value as [x|]; simpl in E; [|congruence].
  destruct j; simpl in E; try discriminate; injection E as <-.
  - simpl. now rewrite Hx.
  - rewrite wf_object in *. apply andb_prop in Hw as [Hs Hv].
    rewrite insert_sorted, insert_values_wf; auto.
Qed.

End WfLemmas.

#[export] Hint Resolve of_list_wf insert_values_wf emplace_values_wf : spt.

(** ** Rebuilding an ordered object by assignments *)

Section Assignments.

Lemma insert_last (k : string) (v : json) (acc : list (string * json)) :
  Forall (fun kv => String.ltb (fst kv) k = true) acc -> Obj.insert k v acc = (acc ++ [(k, v)])%list.
Proof.
  induction 1 as [|[k0 v0] acc H _ IH]; [reflexivity|]. simpl in *.
  unfold String.ltb in H. destruct (String.compare k0 k) eqn:E; try discriminate.
  rewrite String.compare_antisym, E. simpl. now rewrite IH.
Qed.

Lemma sorted_cons_inv (k : string) (v : json) kvs :
  Obj.sorted ((k, v) :: kvs) = true -> Obj.key_below k kvs = true /\ Obj.sorted kvs = true.
Proof. simpl. apply andb_prop. Qed.

Lemma sorted_app_below (pre : list (string * json)) (k : string) (v : json) rest :
  Obj.sorted (pre ++ (k, v) :: rest)%list = true ->
  Forall (fun kv => String.ltb (fst kv) k = true) pre.
Proof.
  induction pre as [|[k1 v1] pre IH]; intros Hs; [constructor|].
  simpl in Hs. apply andb_prop in Hs as [Hb Hs]. specialize (IH Hs). constructor; [|exact IH].
  simpl. destruct pre as [|[k2 v2] pre]; [exact Hb|].
  inversion IH as [|? ? H2 _]; subst. simpl in Hb, H2. eauto using string_ltb_trans.
Qed.

Lemma sorted_app_l (pre rest : list (string * json)) :
  Obj.sorted (pre ++ rest)%list = true -> Obj.sorted pre = true.
Proof.
  induction pre as [|[k v] pre IH]; [reflexivity|]. simpl.
  intros [Hb Hs]%andb_prop. rewrite (IH Hs), andb_true_r.
  destruct pre as [|[k' v'] pre]; [reflexivity | exact Hb].
Qed.

Lemma fold_insert_sorted (l acc : list (string * json)) :
  Obj.sorted (acc ++ l)%list = true ->
  fold_left (fun acc kv => Obj.insert (fst kv) (snd kv) acc) l acc = (acc ++ l)%list.
Proof.
  revert acc. induction l as [|[k v] l IH]; intros acc Hs; simpl; [now rewrite app_nil_r|].
  rewrite insert_last by exact (sorted_app_below _ _ _ _ Hs).
  rewrite IH; [now rewrite <- app_assoc | now rewrite <- app_assoc].
Qed.

(** Assigning the members of an ordered object in order rebuilds it. *)
Lemma of_assignments_sorted (kvs : list (string * json)) :
  Obj.sorted kvs = true -> Obj.of_assignments kvs = kvs.
Proof. intros Hs. exact (fold_insert_sorted kvs [] Hs). Qed.

End Assignments.
