(* ===== verification/JsonText.v ===== *)
(** * The text of a JSON value: [nlohmann::json::dump] and a reader for it

    [lib::spt::api]'s [post], [put] and [del] send [json.dump()], the
    compact text of the body: no spaces, members in the order of the
    object, strings between quotes with the quote and the backslash escaped, the control
    characters written as [\b \f \n \r \t] or [\u00xx] (lowercase hex), all
    other bytes as they are, integers in decimal.  [dump] models it.  The
    service reads that text back; [parse] models a reader of the compact
    form that builds objects by assigning their members in order, as
    nlohmann's parser does ([result[key] = value]).  The round trip
    [parse_dump] holds for every well-formed value.  Not modelled: the
    check nlohmann's [dump] makes that strings are valid UTF-8, whitespace
    between tokens, floating-point numbers and [\u] escapes above [ÿ]. *)

From Stdlib Require Import String Ascii List Lia Bool Arith ZArith DecimalString Decimal DecimalPos DecimalZ.
From S2P Require Import Prelude Json.
Import ListNotations.
Open Scope string_scope.

Definition quote : ascii := "034"%char.
Definition backslash : ascii := "092"%char.

Definition hex_digit (n : nat) : ascii :=
  if Nat.ltb n 10 then ascii_of_nat (48 + n) else ascii_of_nat (87 + n).

(** How [dump] writes one byte of a string. *)
Definition escape_char (c : ascii) : string :=
  let n := nat_of_ascii c in
  if Ascii.eqb c quote then String backslash (String quote EmptyString)
  else if Ascii.eqb c backslash then String backslash (String backslash EmptyString)
  else if Nat.eqb n 8 then String backslash "b"
  else if Nat.eqb n 12 then String backslash "f"
  else if Nat.eqb n 10 then String backslash "n"
  else if Nat.eqb n 13 then String backslash "r"
  else if Nat.eqb n 9 then String backslash "t"
  else if Nat.ltb n 32 then
    String backslash ("u00" ++ String (hex_digit (n / 16)) (String (hex_digit (n mod 16)) EmptyString))
  else String c EmptyString.

Fixpoint escape (s : string) : string :=
  match s with
  | EmptyString => EmptyString
  | String c r => escape_char c ++ escape r
  end.

Definition dump_string (s : string) : string :=
  String quote (escape s ++ String quote EmptyString).

Definition dump_int (z : Z) : string := NilEmpty.string_of_int (Z.to_int z).

(** [json::dump()] with no indentation. *)
Fixpoint dump (j : json) : string :=
  match j with
  | JNull => "null"
  | JBool b => if b then "true" else "false"
  | JInt z => dump_int z
  | JString s => dump_string s
  | JArray xs =>
      "[" ++ (fix elems (xs : list json) : string :=
                match xs with
                | [] => EmptyString
                | [x] => dump x
                | x :: rest => dump x ++ "," ++ elems rest
                end) xs ++ "]"
  | JObject kvs =>
      "{" ++ (fix members (kvs : list (string * json)) : string :=
                match kvs with
                | [] => EmptyString
                | [(k, v)] => dump_string k ++ ":" ++ dump v
                | (k, v) :: rest => dump_string k ++ ":" ++ dump v ++ "," ++ members rest
                end) kvs ++ "}"
  end.

Fixpoint dump_elems (xs : list json) : string :=
  match xs with
  | [] => EmptyString
  | [x] => dump x
  | x :: rest => dump x ++ "," ++ dump_elems rest
  end.

Fixpoint dump_members (kvs : list (string * json)) : string :=
  match kvs with
  | [] => EmptyString
  | [(k, v)] => dump_string k ++ ":" ++ dump v
  | (k, v) :: rest => dump_string k ++ ":" ++ dump v ++ "," ++ dump_members rest
  end.

(** ** The reader *)

Definition is_num_char (c : ascii) : bool :=
  Ascii.eqb c "-" || ((Nat.leb 48 (nat_of_ascii c)) && (Nat.leb (nat_of_ascii c) 57)).

Fixpoint read_number (s : string) : string * string :=
  match s with
  | EmptyString => (EmptyString, EmptyString)
  | String c r =>
      if is_num_char c then let (tok, rest) := read_number r in (String c tok, rest)
      else (EmptyString, s)
  end.

Definition hex_value (c : ascii) : option nat :=
  let n := nat_of_ascii c in
  if (Nat.leb 48 n) && (Nat.leb n 57) then Some (n - 48)
  else if (Nat.leb 97 n) && (Nat.leb n 102) then Some (n - 87)
  else if (Nat.leb 65 n) && (Nat.leb n 70) then Some (n - 55)
  else None.

Definition simple_escape (e : ascii) : option ascii :=
  if Ascii.eqb e quote then Some quote
  else if Ascii.eqb e backslash then Some backslash
  else if Ascii.eqb e "/" then Some "/"%char
  else if Ascii.eqb e "b" then Some (ascii_of_nat 8)
  else if Ascii.eqb e "f" then Some (ascii_of_nat 12)
  else if Ascii.eqb e "n" then Some (ascii_of_nat 10)
  else if Ascii.eqb e "r" then Some (ascii_of_nat 13)
  else if Ascii.eqb e "t" then Some (ascii_of_nat 9)
  else None.

Definition cons_fst (c : ascii) (o : option (string * string)) : option (string * string) :=
  match o with
  | Some (t, rest) => Some (String c t, rest)
  | None => None
  end.

(** The characters of a string after its opening quote, up to and without
    the closing quote, and what follows it. *)
Fixpoint read_string (s : string) : option (string * string) :=
  match s with
  | EmptyString => None
  | String c r =>
      if Ascii.eqb c quote then Some (EmptyString, r)
      else if Ascii.eqb c backslash then
        match r with
        | EmptyString => None
        | String e r' =>
            if Ascii.eqb e "u" then
              match r' with
              | String z1 (String z2 (String h1 (String h2 r''))) =>
                  if Ascii.eqb z1 "0" && Ascii.eqb z2 "0" then
                    match hex_value h1, hex_value h2 with
                    | Some a, Some b => cons_fst (ascii_of_nat (16 * a + b)) (read_string r'')
                    | _, _ => None
                    end
                  else None
              | _ => None
              end
            else
              match simple_escape e with
              | Some c' => cons_fst c' (read_string r')
              | None => None
              end
        end
      else if Nat.ltb (nat_of_ascii c) 32 then None
      else cons_fst c (read_string r)
  end.

(** [p] at the head of [s]: what follows it. *)
Fixpoint strip (p s : string) : option string :=
  match p, s with
  | EmptyString, _ => Some s
  | String a p', String b s' => if Ascii.eqb a b then strip p' s' else None
  | String _ _, EmptyString => None
  end.

Fixpoint parse_value (fuel : nat) (s : string) {struct fuel} : option (json * string) :=
  match fuel with
  | O => None
  | S f =>
      match strip "null" s, strip "true" s, strip "false" s with
      | Some r, _, _ => Some (JNull, r)
      | _, Some r, _ => Some (JBool true, r)
      | _, _, Some r => Some (JBool false, r)
      | None, None, None =>
          match s with
          | EmptyString => None
          | String c r =>
              if Ascii.eqb c quote then
                match read_string r with
                | Some (t, rest) => Some (JString t, rest)
                | None => None
                end
              else if Ascii.eqb c "[" then
                match strip "]" r with
                | Some rest => Some (JArray [], rest)
                | None =>
                    match parse_elems f r with
                    | Some (xs, rest) => Some (JArray xs, rest)
                    | None => None
                    end
                end
              else if Ascii.eqb c "{" then
                match strip "}" r with
                | Some rest => Some (JObject [], rest)
                | None =>
                    match parse_members f r with
                    | Some (kvs, rest) => Some (JObject (Obj.of_assignments kvs), rest)
                    | None => None
                    end
                end
              else if is_num_char c then
                let (tok, rest) := read_number s in
                match NilEmpty.int_of_string tok with
                | Some d => Some (JInt (Z.of_int d), rest)
                | None => None
                end
              else None
          end
      end
  end
with parse_elems (fuel : nat) (s : string) {struct fuel} : option (list json * string) :=
  match fuel with
  | O => None
  | S f =>
      match parse_value f s with
      | Some (v, String c r) =>
          if Ascii.eqb c "," then
            match parse_elems f r with
            | Some (vs, rest) => Some (v :: vs, rest)
            | None => None
            end
          else if Ascii.eqb c "]" then Some ([v], r)
          else None
      | _ => None
      end
  end
with parse_members (fuel : nat) (s : string) {struct fuel}
  : option (list (string * json) * string) :=
  match fuel with
  | O => None
  | S f =>
      match s with
      | String c r =>
          if Ascii.eqb c quote then
            match read_string r with
            | Some (k, String c2 r2) =>
                if Ascii.eqb c2 ":" then
                  match parse_value f r2 with
                  | Some (v, String c3 r3) =>
                      if Ascii.eqb c3 "," then
                        match parse_members f r3 with
                        | Some (kvs, rest) => Some ((k, v) :: kvs, rest)
                        | None => None
                        end
                      else if Ascii.eqb c3 "}" then Some ([(k, v)], r3)
                      else None
                  | _ => None
                  end
                else None
            | _ => None
            end
          else None
      | EmptyString => None
      end
  end.

(** The whole text must be one value. *)
Definition parse (s : string) : option json :=
  match parse_value (String.length s) s with
  | Some (j, EmptyString) => Some j
  | _ => None
  end.

(** ** Lemmas on the text *)

Section TextLemmas.

Lemma strip_app (p s : string) : strip p (p ++ s) = Some s.
Proof. induction p as [|a p IH]; [now destruct s|]. simpl. now rewrite Ascii.eqb_refl. Qed.

(** Reading one escaped byte gives the byte back. *)
Lemma read_string_escape_char (c : ascii) (t : string) :
  read_string (escape_char c ++ t) = cons_fst c (read_string t).
Proof.
  destruct c as [[] [] [] [] [] [] [] []]; reflexivity.
Qed.

Lemma read_string_escape (s rest : string) :
  read_string (escape s ++ String quote rest) = Some (s, rest).
Proof.
  induction s as [|c s IH]; [reflexivity|]. simpl.
  rewrite <- string_app_assoc, read_string_escape_char, IH. reflexivity.
Qed.

Lemma digits_num_chars (d : uint) :
  forallb is_num_char (list_ascii_of_string (NilEmpty.string_of_uint d)) = true.
Proof. induction d; simpl; auto. Qed.

Definition stops (rest : string) : bool :=
  match rest with
  | EmptyString => true
  | String c _ => negb (is_num_char c)
  end.

Lemma read_number_prefix (tok rest : string) :
  forallb is_num_char (list_ascii_of_string tok) = true -> stops rest = true ->
  read_number (tok ++ rest) = (tok, rest).
Proof.
  induction tok as [|c tok IH]; simpl.
  - intros _. destruct rest as [|c rest]; [reflexivity|]. simpl.
    intros H. apply negb_true_iff in H. now rewrite H.
  - intros [Hc Ht]%andb_prop Hr. rewrite Hc, IH; auto.
Qed.

End TextLemmas.

(** ** Sizes and an induction principle through arrays and objects *)

Fixpoint size (j : json) : nat :=
  match j with
  | JArray xs =>
      S ((fix sizes (xs : list json) : nat :=
            match xs with [] => 0 | x :: r => S (size x + sizes r) end) xs)
  | JObject kvs =>
      S ((fix msizes (kvs : list (string * json)) : nat :=
            match kvs with [] => 0 | (_, v) :: r => S (size v + msizes r) end) kvs)
  | _ => 1
  end.

Fixpoint sizes (xs : list json) : nat :=
  match xs with [] => 0 | x :: r => S (size x + sizes r) end.

Fixpoint msizes (kvs : list (string * json)) : nat :=
  match kvs with [] => 0 | (_, v) :: r => S (size v + msizes r) end.

Section JsonInd.
Variable P : json -> Prop.
Hypothesis P_null : P JNull.
Hypothesis P_bool : forall b, P (JBool b).
Hypothesis P_int : forall z, P (JInt z).
Hypothesis P_string : forall s, P (JString s).
Hypothesis P_array : forall xs, Forall P xs -> P (JArray xs).
Hypothesis P_object : forall kvs, Forall (fun kv => P (snd kv)) kvs -> P (JObject kvs).

Fixpoint json_ind' (j : json) : P j :=
  match j with
  | JNull => P_null
  | JBool b => P_bool b
  | JInt z => P_int z
  | JString s => P_string s
  | JArray xs =>
      P_array xs ((fix all (xs : list json) : Forall P xs :=
                     match xs with
                     | [] => Forall_nil _
                     | x :: r => Forall_cons _ (json_ind' x) (all r)
                     end) xs)
  | JObject kvs =>
      P_object kvs ((fix all (kvs : list (string * json)) : Forall (fun kv => P (snd kv)) kvs :=
                       match kvs with
                       | [] => Forall_nil _
                       | kv :: r => Forall_cons _ (json_ind' (snd kv)) (all r)
                       end) kvs)
  end.

End JsonInd.

Section DumpLemmas.

Lemma dump_array (xs : list json) : dump (JArray xs) = "[" ++ dump_elems xs ++ "]".
Proof. reflexivity. Qed.

Lemma dump_object (kvs : list (string * json)) : dump (JObject kvs) = "{" ++ dump_members kvs ++ "}".
Proof. reflexivity. Qed.

Lemma size_array (xs : list json) : size (JArray xs) = S (sizes xs).
Proof. reflexivity. Qed.

Lemma size_object (kvs : list (string * json)) : size (JObject kvs) = S (msizes kvs).
Proof. reflexivity. Qed.

Lemma dump_int_shape (z : Z) :
  exists c t, dump_int z = String c t /\ is_num_char c = true /\
    forallb is_num_char (list_ascii_of_string (dump_int z)) = true.
Proof.
  unfold dump_int. destruct z as [|p|p]; simpl.
  - do 2 eexists; split; [reflexivity | split; reflexivity].
  - pose proof (digits_num_chars (Pos.to_uint p)) as D.
    destruct (Pos.to_uint p) eqn:E; try (do 2 eexists; split; [reflexivity | split; [reflexivity | exact D]]).
    exfalso. exact (DecimalPos.Unsigned.to_uint_nonnil p E).
  - pose proof (digits_num_chars (Pos.to_uint p)) as D.
    do 2 eexists; split; [reflexivity | split; [reflexivity | exact D]].
Qed.

Lemma dump_int_read (z : Z) : option_map Z.of_int (NilEmpty.int_of_string (dump_int z)) = Some z.
Proof. unfold dump_int. rewrite NilEmpty.isi. simpl. now rewrite DecimalZ.of_to. Qed.

End DumpLemmas.

(** ** The reader reads back what [dump] writes *)

Section RoundTrip.

Lemma num_char_ne (a c : ascii) :
  is_num_char a = false -> is_num_char c = true -> Ascii.eqb a c = false.
Proof. intros Ha Hc. destruct (Ascii.eqb_spec a c); [congruence | reflexivity]. Qed.

Lemma parse_value_num (f : nat) (c : ascii) (r : string) :
  is_num_char c = true ->
  parse_value (S f) (String c r) =
  let (tok, rest) := read_number (String c r) in
  match NilEmpty.int_of_string tok with
  | Some d => Some (JInt (Z.of_int d), rest)
  | None => None
  end.
Proof.
  intros Hc. cbn [parse_value strip].
  rewrite !(num_char_ne _ c) by (reflexivity || exact Hc).
  rewrite !(Ascii.eqb_sym c), !(num_char_ne _ c) by (reflexivity || exact Hc).
  now rewrite Hc.
Qed.

Lemma strip_close_dump (j : json) (r : string) (a : ascii) :
  is_num_char a = false -> a <> "n"%char -> a <> "t"%char -> a <> "f"%char ->
  a <> quote -> a <> "["%char -> a <> "{"%char ->
  strip (String a EmptyString) (dump j ++ r) = None.
Proof.
  intros Hn H1 H2 H3 H4 H5 H6. destruct j as [| b | z | s | xs | kvs].
  3: destruct (dump_int_shape z) as (c & t & E & Hc & _); cbn [dump]; rewrite E; simpl;
     now rewrite (num_char_ne a c Hn Hc).
  all: try destruct b; cbn [dump dump_string strip append];
    match goal with |- context [Ascii.eqb ?x ?c] => destruct (Ascii.eqb_spec x c) end;
    congruence.
Qed.

Lemma strip_close_elems (x : json) (xs : list json) (r : string) :
  strip "]" (dump_elems (x :: xs) ++ r) = None.
Proof.
  assert (E : exists t, dump_elems (x :: xs) = dump x ++ t)
    by (destruct xs; [exists EmptyString; now rewrite string_app_nil_r | eexists; reflexivity]).
  destruct E as [t ->]. rewrite <- string_app_assoc.
  apply strip_close_dump; (reflexivity || discriminate).
Qed.

Lemma strip_close_members (k : string) (v : json) (kvs : list (string * json)) (r : string) :
  strip "}" (dump_members ((k, v) :: kvs) ++ r) = None.
Proof. destruct kvs; reflexivity. Qed.

Ltac app_norm := cbn [append]; rewrite <- ?string_app_assoc; cbn [append].

Lemma parse_value_array (f : nat) (r : string) :
  parse_value (S f) (String "[" r) =
  match strip "]" r with
  | Some rest => Some (JArray [], rest)
  | None =>
      match parse_elems f r with
      | Some (xs, rest) => Some (JArray xs, rest)
      | None => None
      end
  end.
Proof. reflexivity. Qed.

Lemma parse_value_object (f : nat) (r : string) :
  parse_value (S f) (String "{" r) =
  match strip "}" r with
  | Some rest => Some (JObject [], rest)
  | None =>
      match parse_members f r with
      | Some (kvs, rest) => Some (JObject (Obj.of_assignments kvs), rest)
      | None => None
      end
  end.
Proof. reflexivity. Qed.

Lemma parse_dump_aux (fuel : nat) :
  (forall j rest, wf j = true -> size j <= fuel -> stops rest = true ->
     parse_value fuel (dump j ++ rest) = Some (j, rest)) /\
  (forall xs rest, xs <> [] -> forallb wf xs = true -> sizes xs <= fuel ->
     parse_elems fuel (dump_elems xs ++ String "]" rest) = Some (xs, rest)) /\
  (forall kvs rest, kvs <> [] -> values_wf kvs = true -> msizes kvs <= fuel ->
     parse_members fuel (dump_members kvs ++ String "}" rest) = Some (kvs, rest)).
Proof.
  induction fuel as [|f (IHv & IHe & IHm)].
  { split; [|split].
    - intros j rest _ Hs _. destruct j; simpl in Hs; lia.
    - intros [|x xs] rest Hne _ Hs; [contradiction | simpl in Hs; lia].
    - intros [|[k v] kvs] rest Hne _ Hs; [contradiction | simpl in Hs; lia]. }
  split; [|split].
  - intros j rest Hwf Hs Hr. destruct j as [|[]|z|s|xs|kvs].
    + reflexivity.
    + reflexivity.
    + reflexivity.
    + destruct (dump_int_shape z) as (c & t & E & Hc & Hall). cbn [dump]. rewrite E.
      cbn [append]. rewrite parse_value_num by exact Hc.
      change (String c (t ++ rest)) with (String c t ++ rest).
      rewrite <- E, read_number_prefix by assumption.
      pose proof (dump_int_read z) as R.
      destruct (NilEmpty.int_of_string (dump_int z)); [|discriminate].
      injection R as ->. reflexivity.
    + unfold dump, dump_string. app_norm. simpl. now rewrite read_string_escape.
    + destruct xs as [|x xs]; [reflexivity|].
      rewrite dump_array, size_array in *. app_norm.
      rewrite parse_value_array, strip_close_elems. rewrite IHe; auto; [discriminate | lia].
    + destruct kvs as [|[k v] kvs]; [reflexivity|].
      rewrite dump_object, size_object in *. app_norm.
      rewrite wf_object in Hwf. apply andb_prop in Hwf as [Hsort Hv].
      assert (Hm : parse_members f (dump_members ((k, v) :: kvs) ++ String "}" rest) =
                   Some ((k, v) :: kvs, rest)) by (apply IHm; auto; [discriminate | lia]).
      rewrite parse_value_object, strip_close_members. rewrite Hm.
      now rewrite of_assignments_sorted.
  - intros [|x xs] rest Hne Hwf Hs; [contradiction|]. simpl in Hwf.
    apply andb_prop in Hwf as [Hx Hxs]. simpl in Hs.
    destruct xs as [|y ys].
    + cbn [dump_elems parse_elems]. rewrite IHv by (auto; lia). reflexivity.
    + change (dump_elems (x :: y :: ys)) with (dump x ++ "," ++ dump_elems (y :: ys)).
      app_norm. cbn [parse_elems]. rewrite IHv by (auto; lia). simpl Ascii.eqb. cbn iota.
      rewrite IHe; auto; [discriminate | lia].
  - intros [|[k v] kvs] rest Hne Hwf Hs; [contradiction|]. unfold values_wf in Hwf. simpl in Hwf.
    apply andb_prop in Hwf as [Hv Hkvs]. simpl in Hs.
    destruct kvs as [|kv' kvs'].
    + change (dump_members [(k, v)]) with (dump_string k ++ ":" ++ dump v).
      unfold dump_string. app_norm. cbn [parse_members]. simpl Ascii.eqb. cbn iota.
      rewrite read_string_escape. simpl Ascii.eqb. cbn iota.
      rewrite IHv by (auto; lia). reflexivity.
    + change (dump_members ((k, v) :: kv' :: kvs'))
        with (dump_string k ++ ":" ++ dump v ++ "," ++ dump_members (kv' :: kvs')).
      unfold dump_string. app_norm. cbn [parse_members]. simpl Ascii.eqb. cbn iota.
      rewrite read_string_escape. simpl Ascii.eqb. cbn iota.
      app_norm. rewrite IHv by (auto; lia). simpl Ascii.eqb. cbn iota.
      rewrite IHm; auto; [discriminate | lia].
Qed.

End RoundTrip.

(** ** The text is at least as long as the value is large *)

Section SizeBound.

Lemma dump_string_length (s : string) : 2 <= String.length (dump_string s).
Proof. unfold dump_string. cbn [String.length]. rewrite string_app_length. simpl. lia. Qed.

Lemma sizes_bound (xs : list json) :
  Forall (fun x => size x <= String.length (dump x)) xs ->
  sizes xs <= S (String.length (dump_elems xs)).
Proof.
  induction 1 as [|x xs Hx _ IH]; [simpl; lia|].
  destruct xs as [|y ys]; [simpl; lia|].
  change (dump_elems (x :: y :: ys)) with (dump x ++ "," ++ dump_elems (y :: ys)).
  change (sizes (x :: y :: ys)) with (S (size x + sizes (y :: ys))).
  rewrite !string_app_length. cbn [String.length]. lia.
Qed.

Lemma msizes_bound (kvs : list (string * json)) :
  Forall (fun kv => size (snd kv) <= String.length (dump (snd kv))) kvs ->
  msizes kvs <= S (String.length (dump_members kvs)).
Proof.
  induction 1 as [|[k v] kvs Hv _ IH]; [simpl; lia|]. cbn [snd] in Hv.
  pose proof (dump_string_length k).
  destruct kvs as [|[k' v'] kvs].
  - change (dump_members [(k, v)]) with (dump_string k ++ ":" ++ dump v).
    rewrite !string_app_length. simpl. lia.
  - change (dump_members ((k, v) :: (k', v') :: kvs))
      with (dump_string k ++ ":" ++ dump v ++ "," ++ dump_members ((k', v') :: kvs)).
    change (msizes ((k, v) :: (k', v') :: kvs)) with (S (size v + msizes ((k', v') :: kvs))).
    rewrite !string_app_length. cbn [String.length]. lia.
Qed.

Lemma size_dump (j : json) : size j <= String.length (dump j).
Proof.
  induction j using json_ind'; try (simpl; lia).
  - destruct b; simpl; lia.
  - destruct (dump_int_shape z) as (c & t & E & _). cbn [dump size]. rewrite E. simpl. lia.
  - rewrite dump_array, size_array, !string_app_length.
    pose proof (sizes_bound xs H). simpl. lia.
  - rewrite dump_object, size_object, !string_app_length.
    pose proof (msizes_bound kvs H). simpl. lia.
Qed.

End SizeBound.

(** Reading back the text [dump] writes gives the value back, for every
    well-formed value (objects with sorted, distinct keys): the reader needs
    no more steps than the text has characters. *)
Theorem parse_dump (j : json) : wf j = true -> parse (dump j) = Some j.
Proof.
  intros Hwf. unfold parse.
  rewrite <- (string_app_nil_r (dump j)).
  destruct (parse_dump_aux (String.length (dump j ++ ""))) as [Hv _].
  rewrite Hv; auto. rewrite string_app_nil_r. apply size_dump.
Qed.

Lemma parse_dump_witness :
  wf (JObject [("collaborative", JBool false); ("name", JString "a\b")]) = true /\
  parse (dump (JObject [("collaborative", JBool false); ("name", JString "a\b")])) =
    Some (JObject [("collaborative", JBool false); ("name", JString "a\b")]).
Proof. split; [reflexivity | apply parse_dump; reflexivity]. Defined.
