(* ===== verification/Text.v ===== *)
(** * String helpers the endpoints format their URLs with

    [lib::fmt::format] substitutes its arguments, in order, for the ["{}"]
    placeholders of a template (each argument replaces the first ["{}"] left
    in the text produced so far); [lib::strings::join] joins a vector of
    strings with a separator; [lib::strings::remove] removes the first
    occurrence of a substring.  These helpers live in the program's library
    outside src/ and are modelled from their documented contract.  The file
    also holds [split], the decoder a server applies to a comma-separated
    query parameter, used to state the round trip of [join]. *)

From Stdlib Require Import String Ascii List Lia Bool.
From S2P Require Import Prelude.
Import ListNotations.
Open Scope string_scope.

Definition lbrace : ascii := "{"%char.
Definition rbrace : ascii := "}"%char.

(** One substitution: the first ["{}"] of [fmt] becomes [arg]; a template
    with no placeholder is returned as it is. *)
Fixpoint format1 (fmt arg : string) : string :=
  match fmt with
  | EmptyString => EmptyString
  | String c rest =>
      match rest with
      | String c' rest' =>
          if Ascii.eqb c lbrace && Ascii.eqb c' rbrace then arg ++ rest'
          else String c (format1 rest arg)
      | EmptyString => String c EmptyString
      end
  end.

(** [lib::fmt::format(fmt, a1, ..., an)]. *)
Definition format (fmt : string) (args : list string) : string :=
  fold_left format1 args fmt.

(** Whether [s] contains ["{}"]. *)
Fixpoint has_placeholder (s : string) : bool :=
  match s with
  | EmptyString => false
  | String c rest =>
      match rest with
      | String c' _ => (Ascii.eqb c lbrace && Ascii.eqb c' rbrace) || has_placeholder rest
      | EmptyString => false
      end
  end.

(** [lib::strings::join(vec, separator)]. *)
Fixpoint join (l : list string) (sep : string) : string :=
  match l with
  | [] => ""
  | [x] => x
  | x :: rest => x ++ sep ++ join rest sep
  end.

(** Splitting on one separator character, as a query-string decoder does. *)
Fixpoint split (c : ascii) (s : string) : list string :=
  match s with
  | EmptyString => [EmptyString]
  | String a rest =>
      if Ascii.eqb a c then EmptyString :: split c rest
      else match split c rest with
           | [] => [String a EmptyString]
           | x :: xs => String a x :: xs
           end
  end.

Fixpoint has_char (c : ascii) (s : string) : bool :=
  match s with
  | EmptyString => false
  | String a rest => Ascii.eqb a c || has_char c rest
  end.

(** [lib::strings::remove(str, sub)]: the first occurrence of [sub]
    removed. *)
Fixpoint remove (s sub : string) : string :=
  if String.prefix sub s then substring (String.length sub) (String.length s) s
  else match s with
       | EmptyString => EmptyString
       | String c rest => String c (remove rest sub)
       end.

(** ** Lemmas *)

Section TextLemmas.

Lemma has_char_app (c : ascii) (a b : string) :
  has_char c (a ++ b) = has_char c a || has_char c b.
Proof. induction a as [|x a IH]; simpl; [reflexivity|]. now rewrite IH, orb_assoc. Qed.

Lemma has_placeholder_tail (c : ascii) (s : string) :
  has_placeholder (String c s) = false -> has_placeholder s = false.
Proof. destruct s as [|c' s]; simpl; [reflexivity|]. now intros [_ H]%orb_false_iff. Qed.

Lemma no_lbrace_no_placeholder (s : string) :
  has_char lbrace s = false -> has_placeholder s = false.
Proof.
  induction s as [|c s IH]; simpl; [reflexivity|].
  intros [Hc Hs]%orb_false_iff. destruct s as [|c' s]; [reflexivity|].
  rewrite Hc. simpl. now apply IH.
Qed.

(** The first placeholder of [p ++ "{}" ++ q] is the one after [p] when
    [p] has none of its own. *)
Lemma format1_app (p q a : string) :
  has_placeholder p = false -> format1 (p ++ "{}" ++ q) a = p ++ a ++ q.
Proof.
  induction p as [|c p IH]; intros Hp; [reflexivity|].
  simpl. destruct p as [|c' p].
  - simpl. destruct (Ascii.eqb c lbrace); reflexivity.
  - simpl in Hp. apply orb_false_iff in Hp as [Hcc Hp].
    simpl. rewrite Hcc. f_equal. apply IH. exact Hp.
Qed.

Lemma format1_none (s a : string) :
  has_placeholder s = false -> format1 s a = s.
Proof.
  induction s as [|c s IH]; intros Hs; [reflexivity|].
  simpl. destruct s as [|c' s]; [reflexivity|].
  simpl in Hs. apply orb_false_iff in Hs as [Hcc Hs].
  rewrite Hcc. f_equal. apply IH. exact Hs.
Qed.

Lemma format_cons (p q a : string) (args : list string) :
  has_placeholder p = false ->
  format (p ++ "{}" ++ q) (a :: args) = format (p ++ a ++ q) args.
Proof. intros Hp. unfold format. cbn [fold_left]. now rewrite format1_app. Qed.

Lemma format_nil (s : string) : format s [] = s.
Proof. reflexivity. Qed.

Lemma split_no_char (c : ascii) (x : string) :
  has_char c x = false -> split c x = [x].
Proof.
  induction x as [|a x IH]; simpl; [reflexivity|].
  intros [Ha Hx]%orb_false_iff. rewrite Ha, IH; auto.
Qed.

Lemma split_app_sep (c : ascii) (x s : string) :
  has_char c x = false -> split c (x ++ String c s) = x :: split c s.
Proof.
  induction x as [|a x IH]; simpl.
  - intros _. now rewrite Ascii.eqb_refl.
  - intros [Ha Hx]%orb_false_iff. rewrite Ha, IH; auto.
Qed.

Lemma prefix_app (a b : string) : String.prefix a (a ++ b) = true.
Proof.
  induction a as [|x a IH]; simpl; [now destruct b|].
  destruct (Ascii.ascii_dec x x); [exact IH | contradiction].
Qed.

Lemma substring_full (s : string) (m : nat) :
  String.length s <= m -> substring 0 m s = s.
Proof.
  revert m; induction s as [|c s IH]; intros [|m] H; simpl in *; try lia; auto.
  f_equal. apply IH. lia.
Qed.

Lemma substring_app (a b : string) (m : nat) :
  String.length b <= m -> substring (String.length a) m (a ++ b) = b.
Proof.
  induction a as [|x a IH]; intros H; simpl; [now apply substring_full | auto].
Qed.

End TextLemmas.

#[export] Hint Resolve no_lbrace_no_placeholder : spt.

Lemma remove_unfold (s sub : string) :
  remove s sub =
  if String.prefix sub s then substring (String.length sub) (String.length s) s
  else match s with
       | EmptyString => EmptyString
       | String c rest => String c (remove rest sub)
       end.
Proof. destruct s; reflexivity. Qed.

(** [lib::strings::remove] strips a leading occurrence of [sub]. *)
Lemma remove_prefix (sub rest : string) : remove (sub ++ rest) sub = rest.
Proof.
  rewrite remove_unfold, prefix_app. apply substring_app.
  rewrite string_app_length. lia.
Qed.

(** Joining strings that do not contain the separator character [c]
    with the one-character separator, then splitting on [c], gives back the
    list: the comma-separated [uris] parameter decodes to the URIs passed. *)
Theorem split_join (c : ascii) (l : list string) :
  l <> [] -> Forall (fun x => has_char c x = false) l ->
  split c (join l (String c EmptyString)) = l.
Proof.
  intros Hne Hall. induction Hall as [|x l Hx Hl IH]; [contradiction|].
  destruct l as [|y l].
  - simpl. now apply split_no_char.
  - change (join (x :: y :: l) (String c "")) with (x ++ String c "" ++ join (y :: l) (String c "")).
    simpl. rewrite split_app_sep by exact Hx. f_equal. apply IH. discriminate.
Qed.

(** An empty list joins to the empty string, which decodes as one empty
    URI, not as no URI. *)
Example split_join_nil : split ","%char (join [] ",") = [""].
Proof. reflexivity. Qed.

Lemma format_single (p q a : string) :
  has_placeholder p = false -> format (p ++ "{}" ++ q) [a] = p ++ a ++ q.
Proof. intros Hp. now rewrite format_cons. Qed.

Lemma format_pair (p q r a b : string) :
  has_placeholder p = false -> has_placeholder (p ++ a ++ q) = false ->
  format (p ++ "{}" ++ q ++ "{}" ++ r) [a; b] = p ++ a ++ q ++ b ++ r.
Proof.
  intros Hp Hq. rewrite format_cons by exact Hp.
  replace (p ++ a ++ q ++ "{}" ++ r) with ((p ++ a ++ q) ++ "{}" ++ r)
    by now rewrite !string_app_assoc.
  rewrite format_single by exact Hq. now rewrite !string_app_assoc.
Qed.
