(* ===== verification/Http.v ===== *)
(** * Requests, responses and the pagination loop of [lib::spt::api]

    Every endpoint of src/lib/src/spotifyapi/playlists.cpp ends in one call
    to the client's [get], [post], [put] or [del], which sends one HTTP
    request to a path relative to the Web API base and hands the JSON reply
    (or the error text) to a callback; collection endpoints go through
    [get_items], which follows the ["next"] links of the pages and hands the
    concatenated ["items"] to the callback.  These members of
    [lib::spt::api] are outside src/ and are modelled from their documented
    contract.  The remote service is an interface, the class [Transport];
    [PagedSource] states what a paginated collection endpoint promises, and
    [get_items] is proved complete against that promise. *)

From Stdlib Require Import String List Lia Bool.
From S2P Require Import Prelude Json Text.
Import ListNotations.
Open Scope string_scope.

Inductive verb : Type := GET | POST | PUT | DELETE.

Record request : Type := mk_request {
  req_verb : verb;
  req_url : string;        (* path relative to the Web API base *)
  req_body : option json
}.

(** The base URL that ["next"] links carry and that the client strips. *)
Definition api_base : string := "https://api.spotify.com/v1/".

(** [get(url, callback)], [post(url, json, callback)],
    [post(url, callback)], [put(url, json, callback)],
    [del(url, json, callback)]. *)
Definition get (url : string) : request := mk_request GET url None.
Definition post (url : string) (body : json) : request := mk_request POST url (Some body).
Definition post_empty (url : string) : request := mk_request POST url None.
Definition put (url : string) (body : json) : request := mk_request PUT url (Some body).
Definition del (url : string) (body : json) : request := mk_request DELETE url (Some body).

(** The remote service: the reply to a request, an error text or JSON. *)
Class Transport := respond : request -> fallible json.

Definition items_missing : string :=
  "[json.exception.out_of_range.403] key 'items' not found".

(** [get_items(url, callback)]: fetch a page, append its ["items"], and
    follow ["next"] while it is a string.  The loop is unbounded in the
    program; [fuel] bounds the number of pages fetched and [None] means the
    bound was reached. *)
Fixpoint get_items `{Transport} (fuel : nat) (url : string) (acc : list json)
  : option (fallible (list json)) :=
  match fuel with
  | O => None
  | S f =>
      match respond (get url) with
      | inl e => Some (inl e)
      | inr j =>
          match at_key "items" j with
          | Some (JArray xs) =>
              match at_key "next" j with
              | Some (JString n) => get_items f (remove n api_base) (acc ++ xs)%list
              | _ => Some (inr (acc ++ xs)%list)
              end
          | _ => Some (inl items_missing)
          end
      end
  end.

(** The pagination cursor [lib::spt::pagination<T>]: the URL of the page
    to fetch next ([None] once the last page is in) and the items so far. *)
Record cursor : Type := mk_cursor {
  cur_url : option string;
  cur_items : list json
}.

Definition cursor_start (url : string) : cursor := mk_cursor (Some url) [].

(** One fetch of the cursor. *)
Definition cursor_next `{Transport} (c : cursor) : fallible cursor :=
  match cur_url c with
  | None => inr c
  | Some url =>
      match respond (get url) with
      | inl e => inl e
      | inr j =>
          match at_key "items" j with
          | Some (JArray xs) =>
              match at_key "next" j with
              | Some (JString n) => inr (mk_cursor (Some (remove n api_base)) (cur_items c ++ xs)%list)
              | _ => inr (mk_cursor None (cur_items c ++ xs)%list)
              end
          | _ => inl items_missing
          end
      end
  end.

(** A page as the service sends it. *)
Definition page_json (xs : list json) (next : option string) : json :=
  JObject [("items", JArray xs);
           ("next", match next with Some u => JString (api_base ++ u) | None => JNull end)].

(** What a paginated endpoint promises: the pages, in order, each served
    under its URL with a ["next"] link to the following one. *)
Fixpoint serves `{Transport} (pages : list (string * list json)) : Prop :=
  match pages with
  | [] => True
  | (u, xs) :: rest =>
      respond (get u) = inr (page_json xs (option_map fst (hd_error rest))) /\
      serves rest
  end.

(** Pages served in order, each linking to the next and the last one
    linking on to [last]. *)
Fixpoint serves_to `{Transport} (pages : list (string * list json)) (last : string) : Prop :=
  match pages with
  | [] => True
  | (u, xs) :: rest =>
      respond (get u) =
        inr (page_json xs (Some (match rest with [] => last | (u', _) :: _ => u' end))) /\
      serves_to rest last
  end.

(** A reply [get_items] cannot go on from: an error of the transport, or a
    page without an ["items"] array (nlohmann's [at] throws). *)
Definition page_failure (reply : fallible json) : option string :=
  match reply with
  | inl e => Some e
  | inr j =>
      match at_key "items" j with
      | Some (JArray _) => None
      | _ => Some items_missing
      end
  end.

Class PagedSource `{Transport} := {
  ps_pages : list (string * list json);
  ps_nonempty : ps_pages <> [];
  ps_serves : serves ps_pages
}.

(** A service that holds a fixed list of pages and answers 404 elsewhere. *)
Fixpoint lookup_page (url : string) (pages : list (string * list json))
  : option (list json * option string) :=
  match pages with
  | [] => None
  | (u, xs) :: rest =>
      if String.eqb url u then Some (xs, option_map fst (hd_error rest))
      else lookup_page url rest
  end.

Definition serve_pages (pages : list (string * list json)) : Transport :=
  fun r =>
    match req_verb r with
    | GET =>
        match lookup_page (req_url r) pages with
        | Some (xs, next) => inr (page_json xs next)
        | None => inl "404"
        end
    | _ => inl "405"
    end.

(** ** Running the cursor to the end *)

Fixpoint cursor_run `{Transport} (fuel : nat) (c : cursor) : option (fallible (list json)) :=
  match fuel with
  | O => None
  | S f =>
      match cursor_next c with
      | inl e => Some (inl e)
      | inr c' =>
          match cur_url c' with
          | None => Some (inr (cur_items c'))
          | Some _ => cursor_run f c'
          end
      end
  end.

(** ** Lemmas *)

Section HttpLemmas.
Context `{T : Transport}.

Lemma at_key_page_items (xs : list json) (next : option string) :
  at_key "items" (page_json xs next) = Some (JArray xs).
Proof. reflexivity. Qed.

Lemma at_key_page_next (xs : list json) (next : option string) :
  at_key "next" (page_json xs next) =
  Some (match next with Some u => JString (api_base ++ u) | None => JNull end).
Proof. reflexivity. Qed.

(** One page of a served chain. *)
Lemma get_items_page (f : nat) (u : string) (xs : list json) (next : option string)
    (acc : list json) :
  respond (get u) = inr (page_json xs next) ->
  get_items (S f) u acc =
  match next with
  | Some u' => get_items f u' (acc ++ xs)%list
  | None => Some (inr (acc ++ xs)%list)
  end.
Proof.
  intros Hr. simpl. rewrite Hr, at_key_page_items, at_key_page_next.
  destruct next as [u'|]; [now rewrite remove_prefix | reflexivity].
Qed.

Lemma get_items_serves (pages : list (string * list json)) (fuel : nat) (acc : list json) :
  serves pages -> pages <> [] -> length pages <= fuel ->
  get_items fuel (fst (hd (EmptyString, []) pages)) acc =
  Some (inr (acc ++ concat (map snd pages))%list).
Proof.
  revert fuel acc. induction pages as [|[u xs] rest IH]; intros fuel acc Hs Hne Hf;
    [contradiction|].
  destruct fuel as [|f]; simpl in Hf; [lia|]. destruct Hs as [Hu Hs].
  cbn [fst hd]. rewrite (get_items_page f u xs _ acc Hu).
  destruct rest as [|[u' xs'] rest'].
  - simpl. now rewrite !app_nil_r.
  - cbn [option_map hd_error fst].
    pose proof (IH f (acc ++ xs)%list Hs ltac:(discriminate) ltac:(simpl in *; lia)) as E.
    cbn [fst hd] in E. rewrite E. cbn [map concat snd]. now rewrite <- app_assoc.
Qed.

(** With fewer units of fuel than pages the loop runs out before the last
    page: it needs one fetch per page. *)
Lemma get_items_serves_short (pages : list (string * list json)) (fuel : nat) (acc : list json) :
  serves pages -> fuel < length pages ->
  get_items fuel (fst (hd (EmptyString, []) pages)) acc = None.
Proof.
  revert fuel acc. induction pages as [|[u xs] rest IH]; intros fuel acc Hs Hf;
    [simpl in Hf; lia|].
  destruct fuel as [|f]; [reflexivity|]. destruct Hs as [Hu Hs].
  cbn [fst hd]. rewrite (get_items_page f u xs _ acc Hu).
  destruct rest as [|[u' xs'] rest']; [simpl in Hf; lia|].
  cbn [option_map hd_error fst].
  pose proof (IH f (acc ++ xs)%list Hs ltac:(simpl in *; lia)) as E.
  cbn [fst hd] in E. exact E.
Qed.

(** More fuel never changes a result: the bound only cuts the loop off. *)
Lemma get_items_fuel_mono (f f' : nat) (u : string) (acc : list json) r :
  get_items f u acc = Some r -> f <= f' -> get_items f' u acc = Some r.
Proof.
  revert f' u acc. induction f as [|f IH]; intros f' u acc E Hle; [discriminate|].
  destruct f' as [|f']; [lia|]. revert E; cbn [get_items].
  destruct (respond (get u)) as [e|j]; [easy|].
  destruct (at_key "items" j) as [[]|]; try easy.
  destruct (at_key "next" j) as [[]|]; try easy.
  intros E. apply IH; [exact E | lia].
Qed.

(** Following a chain of served pages costs one unit of fuel per page and
    appends their items. *)
Lemma get_items_serves_to (pages : list (string * list json)) (last : string)
    (f : nat) (acc : list json) :
  serves_to pages last ->
  get_items (length pages + f) (fst (hd (last, []) pages)) acc =
  get_items f last (acc ++ concat (map snd pages))%list.
Proof.
  revert acc. induction pages as [|[u xs] rest IH]; intros acc Hs.
  - cbn. now rewrite app_nil_r.
  - destruct Hs as [Hu Hs]. cbn [length plus fst hd].
    rewrite (get_items_page _ u xs _ acc Hu). cbn [map concat snd].
    rewrite app_assoc. destruct rest as [|[u' xs'] rest'].
    + cbn. now rewrite app_nil_r.
    + exact (IH (acc ++ xs)%list Hs).
Qed.

(** A failed reply ends the loop with its error. *)
Lemma get_items_failure (f : nat) (u : string) (acc : list json) (e : string) :
  page_failure (respond (get u)) = Some e -> get_items (S f) u acc = Some (inl e).
Proof.
  unfold page_failure. cbn [get_items]. destruct (respond (get u)) as [e'|j]; [congruence|].
  destruct (at_key "items" j) as [[]|]; congruence.
Qed.

End HttpLemmas.

Section ServePages.

Lemma lookup_page_app (pages pre : list (string * list json)) (u : string) :
  ~ In u (map fst pre) -> lookup_page u (pre ++ pages) = lookup_page u pages.
Proof.
  induction pre as [|[u0 xs0] pre IH]; simpl; [reflexivity|].
  intros Hn. string_eqb_case u u0; [tauto|]. apply IH. tauto.
Qed.

Lemma serve_pages_suffix (pages pre : list (string * list json)) :
  NoDup (map fst (pre ++ pages)) -> @serves (serve_pages (pre ++ pages)) pages.
Proof.
  revert pre. induction pages as [|[u xs] rest IH]; intros pre Hnd; simpl; [exact I|].
  split.
  - unfold respond, serve_pages, get; cbn [req_verb req_url].
    rewrite lookup_page_app; simpl.
    + now rewrite String.eqb_refl.
    + rewrite map_app in Hnd. simpl in Hnd. apply NoDup_remove_2 in Hnd.
      rewrite in_app_iff in Hnd. tauto.
  - specialize (IH (pre ++ [(u, xs)])%list). rewrite <- app_assoc in IH. apply IH.
    exact Hnd.
Qed.

End ServePages.

(** A list of pages with distinct URLs, served by [serve_pages], keeps the
    promise of a paginated endpoint. *)
Definition serve_pages_source (pages : list (string * list json))
    (Hnd : NoDup (map fst pages)) (Hne : pages <> []) :
  @PagedSource (serve_pages pages) :=
  {| ps_pages := pages; ps_nonempty := Hne;
     ps_serves := serve_pages_suffix pages [] Hnd |}.

(** ** Properties of the pagination loop *)

(** Against any endpoint that keeps the pagination promise,
    [get_items] started at the first page's URL, with at least one unit of
    fuel per page, delivers the concatenation of every page's items, in
    page order. *)
Theorem get_items_complete `{T : Transport} `{P : @PagedSource T} (fuel : nat) :
  length ps_pages <= fuel ->
  get_items fuel (fst (hd (EmptyString, []) ps_pages)) [] =
  Some (inr (concat (map snd ps_pages))).
Proof.
  intros Hf. rewrite (get_items_serves ps_pages fuel [] ps_serves ps_nonempty Hf).
  reflexivity.
Qed.

(** The loop has no guard against a ["next"] link that leads back to
    a page already fetched: on a page that links to itself, [get_items]
    never delivers, whatever the fuel. *)
Theorem get_items_cycle `{T : Transport} (u : string) (xs : list json) :
  respond (get u) = inr (page_json xs (Some u)) ->
  forall fuel acc, get_items fuel u acc = None.
Proof.
  intros Hr fuel. induction fuel as [|f IH]; intros acc; [reflexivity|].
  rewrite (get_items_page f u xs (Some u) acc Hr). apply IH.
Qed.

(** Driving the pagination cursor page by page computes exactly what
    [get_items] computes, error, result or exhaustion of the fuel. *)
Theorem cursor_run_get_items `{T : Transport} (fuel : nat) (url : string) (acc : list json) :
  cursor_run fuel (mk_cursor (Some url) acc) = get_items fuel url acc.
Proof.
  revert url acc. induction fuel as [|f IH]; intros url acc; [reflexivity|].
  simpl. unfold cursor_next; simpl.
  destruct (respond (get url)) as [e|j]; [reflexivity|].
  destruct (at_key "items" j) as [[]|]; try reflexivity.
  destruct (at_key "next" j) as [[]|]; try reflexivity. apply IH.
Qed.

(** ** Witnesses on concrete services *)

Definition two_pages : list (string * list json) :=
  [("me/playlists?limit=50", [JString "p1"; JString "p2"]);
   ("me/playlists?offset=50&limit=50", [JString "p3"])].

Lemma two_pages_nodup : NoDup (map fst two_pages).
Proof. repeat constructor; simpl; intuition discriminate. Qed.

Lemma two_pages_nonempty : two_pages <> [].
Proof. discriminate. Qed.

Lemma get_items_complete_witness :
  @get_items (serve_pages two_pages) 2 "me/playlists?limit=50" [] =
  Some (inr [JString "p1"; JString "p2"; JString "p3"]).
Proof.
  exact (get_items_complete (T := serve_pages two_pages)
           (P := serve_pages_source two_pages two_pages_nodup two_pages_nonempty)
           2 ltac:(simpl; lia)).
Defined.

Definition self_loop : Transport := fun _ => inr (page_json [JString "t"] (Some "loop")).

Lemma get_items_cycle_witness :
  @get_items self_loop 1000 "loop" [] = None.
Proof. exact (get_items_cycle (T := self_loop) "loop" [JString "t"] eq_refl 1000 []). Defined.
