(* ===== verification/Paging.v ===== *)
(** * How the Web API pages a collection

    The collection endpoints of playlists.cpp ask for [limit=50]; the
    service answers the first page under the endpoint's URL and links each
    page to the next one by its offset, until the collection is exhausted.
    This file models that service: [offset_pages] splits a collection into
    the pages the service sends (at least one page, at most [page_limit]
    items each), under the URLs [page_url offset].  With the promise of
    [Http.PagedSource] discharged for it, the page loop [Http.get_items] is
    shown to finish after exactly [page_count n] fetches for a collection of
    [n] items and to deliver the whole collection. *)

From Equations Require Import Equations.
From Stdlib Require Import String List Lia Arith DecimalString DecimalNat.
From S2P Require Import Prelude Json Text Http.
Import ListNotations.
Open Scope string_scope.

(** The [limit] the endpoints send. *)
Definition page_limit : nat := 50.

(** How many pages a collection of [n] items takes: one even when empty. *)
Definition page_count (n : nat) : nat := Nat.max 1 ((n + (page_limit - 1)) / page_limit).

Section OffsetPages.
Context (page_url : nat -> string).

Equations? offset_pages (off : nat) (items : list json) : list (string * list json)
  by wf (length items) lt :=
  offset_pages off items with le_lt_dec (length items) page_limit => {
    | left _ => [(page_url off, items)];
    | right _ =>
        (page_url off, firstn page_limit items)
          :: offset_pages (off + page_limit) (skipn page_limit items) }.
Proof. change (length (skipn 50 items) < length items). rewrite length_skipn. unfold page_limit in *. lia. Qed.

End OffsetPages.

Section OffsetPagesLemmas.
Context (page_url : nat -> string).
Hypothesis page_url_inj : forall a b, page_url a = page_url b -> a = b.

Lemma offset_pages_concat (off : nat) (items : list json) :
  concat (map snd (offset_pages page_url off items)) = items.
Proof.
  funelim (offset_pages page_url off items); cbn [map concat snd fst length hd In].
  - apply app_nil_r.
  - rewrite H. apply firstn_skipn.
Qed.

Lemma page_count_small (n : nat) : n <= page_limit -> page_count n = 1.
Proof.
  unfold page_count, page_limit. intros H. destruct n as [|n]; [reflexivity|].
  replace (S n + (50 - 1)) with (n + 1 * 50) by lia.
  rewrite Nat.div_add, Nat.div_small by lia. reflexivity.
Qed.

Lemma page_count_step (n : nat) :
  page_limit < n -> page_count n = S (page_count (n - page_limit)).
Proof.
  unfold page_count, page_limit. intros H.
  replace (n + (50 - 1)) with ((n - 51) + 2 * 50) by lia.
  replace (n - 50 + (50 - 1)) with ((n - 51) + 1 * 50) by lia.
  rewrite !Nat.div_add by lia. lia.
Qed.

Lemma offset_pages_length (off : nat) (items : list json) :
  length (offset_pages page_url off items) = page_count (length items).
Proof.
  funelim (offset_pages page_url off items); cbn [length].
  - now rewrite page_count_small.
  - match goal with IH : length (offset_pages _ _ _) = _ |- _ => rewrite IH end.
    rewrite length_skipn, (page_count_step (length items)) by assumption. reflexivity.
Qed.

Lemma offset_pages_head (off : nat) (items : list json) :
  fst (hd (EmptyString, []) (offset_pages page_url off items)) = page_url off.
Proof.
  funelim (offset_pages page_url off items); reflexivity.
Qed.

(** Every page holds at most [page_limit] items. *)
Lemma offset_pages_bounded (off : nat) (items : list json) :
  Forall (fun p => length (snd p) <= page_limit) (offset_pages page_url off items).
Proof.
  funelim (offset_pages page_url off items); cbn [map concat snd fst length hd In].
  - constructor; [exact l | constructor].
  - constructor; [cbn [snd]; rewrite length_firstn; apply Nat.le_min_l | exact H].
Qed.

Lemma offset_pages_urls (off : nat) (items : list json) (u : string) :
  In u (map fst (offset_pages page_url off items)) -> exists k, off <= k /\ u = page_url k.
Proof.
  funelim (offset_pages page_url off items); cbn [map concat snd fst length hd In].
  - intros [<- | []]. exists off. split; [lia | reflexivity].
  - intros [<- | Hu]; [exists off; split; [lia | reflexivity]|].
    destruct (H u Hu) as (k & Hk & ->). exists k. split; [lia | reflexivity].
Qed.

Lemma offset_pages_nodup (off : nat) (items : list json) :
  NoDup (map fst (offset_pages page_url off items)).
Proof.
  funelim (offset_pages page_url off items); cbn [map concat snd fst length hd In].
  - repeat constructor. intros [].
  - constructor; [|exact H].
    intros Hin. destruct (offset_pages_urls _ _ _ Hin) as (k & Hk & E).
    apply page_url_inj in E. unfold page_limit in *. lia.
Qed.

Lemma offset_pages_nonempty (off : nat) (items : list json) :
  offset_pages page_url off items <> [].
Proof. funelim (offset_pages page_url off items); discriminate. Qed.

(** The service that sends a collection in pages of [page_limit]. *)
Definition offset_service (items : list json) : Transport :=
  serve_pages (offset_pages page_url 0 items).

Definition offset_source (items : list json) : @PagedSource (offset_service items) :=
  serve_pages_source (offset_pages page_url 0 items)
    (offset_pages_nodup 0 items) (offset_pages_nonempty 0 items).

End OffsetPagesLemmas.

(** ** The page loop on an offset-paged collection *)

Section OffsetLoop.
Context (page_url : nat -> string).
Hypothesis page_url_inj : forall a b, page_url a = page_url b -> a = b.

Lemma offset_serves (items : list json) :
  @serves (offset_service page_url items) (offset_pages page_url 0 items).
Proof. exact (serve_pages_suffix _ [] (offset_pages_nodup page_url page_url_inj 0 items)). Qed.

(** Starting at the first page, [page_count n] fetches deliver the whole
    collection, in order. *)
Lemma get_items_offset (items : list json) (fuel : nat) :
  page_count (length items) <= fuel ->
  @get_items (offset_service page_url items) fuel (page_url 0) [] = Some (inr items).
Proof.
  intros Hf. rewrite <- (offset_pages_head page_url 0 items).
  rewrite (@get_items_serves (offset_service page_url items) (offset_pages page_url 0 items)
             fuel [] (offset_serves items) (offset_pages_nonempty page_url 0 items)).
  - now rewrite offset_pages_concat.
  - now rewrite offset_pages_length.
Qed.

(** With fewer fetches the loop does not finish. *)
Lemma get_items_offset_short (items : list json) (fuel : nat) :
  fuel < page_count (length items) ->
  @get_items (offset_service page_url items) fuel (page_url 0) [] = None.
Proof.
  intros Hf. rewrite <- (offset_pages_head page_url 0 items).
  apply (@get_items_serves_short (offset_service page_url items)).
  - exact (offset_serves items).
  - now rewrite offset_pages_length.
Qed.

End OffsetLoop.

(** ** The Web API's page URLs *)

Definition nat_text (n : nat) : string := NilEmpty.string_of_uint (Nat.to_uint n).

Lemma nat_text_inj (a b : nat) : nat_text a = nat_text b -> a = b.
Proof.
  unfold nat_text. intros E. apply (f_equal NilEmpty.uint_of_string) in E.
  rewrite !NilEmpty.usu in E. injection E as E. now apply Unsigned.to_uint_inj.
Qed.

(** The first page is asked for by the endpoint's own URL; the next ones
    add the offset. *)
Definition spotify_page_url (base : string) (off : nat) : string :=
  if Nat.eqb off 0 then base else base ++ "&offset=" ++ nat_text off.

Lemma spotify_page_url_inj (base : string) (a b : nat) :
  spotify_page_url base a = spotify_page_url base b -> a = b.
Proof.
  unfold spotify_page_url.
  destruct (Nat.eqb_spec a 0), (Nat.eqb_spec b 0); intros E; try lia;
    try (apply (f_equal String.length) in E; rewrite !string_app_length in E; simpl in E; lia).
  apply string_app_inv_l in E. apply (string_app_inv_l "&offset=") in E.
  now apply nat_text_inj.
Qed.
