(* ===== verification/Playlists.v ===== *)
(** * The playlist endpoints (src/lib/src/spotifyapi/playlists.cpp)

    One definition per member function of [lib::spt::api] in that file.  A
    function that sends one request is modelled by the request it sends
    (its callback receives the reply); the collection
    endpoints are [Http.get_items] at their URL, and the overload of
    [playlist_tracks] that returns a heap-allocated pagination object is the
    cursor it creates. *)

From Stdlib Require Import String Ascii List Lia Bool ZArith.
From S2P Require Import Prelude Json JsonText Text Http Paging.
Import ListNotations.
Open Scope string_scope.

Module Spt.

(** [lib::spt::playlist], the fields the endpoints read. *)
Record playlist : Type := mk_playlist {
  pl_id : string;
  pl_name : string;
  pl_description : string;
  pl_is_public : bool;
  pl_collaborative : bool
}.

(** [lib::spt::playlist_details], the body of [edit_playlist]. *)
Record playlist_details : Type := mk_playlist_details {
  pd_name : string;
  pd_description : string;
  pd_is_public : bool;
  pd_collaborative : bool
}.

End Spt.
Import Spt.

(** Its [to_json]: all four fields. *)
#[export] Instance ToJson_playlist_details : ToJson playlist_details :=
  fun d => JObject (Obj.of_list [("name", JString (pd_name d));
                                 ("public", JBool (pd_is_public d));
                                 ("collaborative", JBool (pd_collaborative d));
                                 ("description", JString (pd_description d))]).

Module Api.

(** [create_playlist(name, description, is_public, is_collaborative, callback)]:
    the body starts as [{"name": name}] and each optional field is set only
    when present, then the body is POSTed to [me/playlists]. *)
Definition create_playlist (name : string) (description : option string)
    (is_public is_collaborative : option bool) : fallible request :=
  let json := JObject (Obj.of_list [("name", JString name)]) in
  (json <- Json.set json "description" description ;;
   json <- Json.set json "public" is_public ;;
   json <- Json.set json "collaborative" is_collaborative ;;
   inr (post "me/playlists" json))%spt.

(** [playlists(callback)]: every playlist of the user, 50 per page. *)
Definition playlists `{Transport} (fuel : nat) : option (fallible (list json)) :=
  get_items fuel "me/playlists?limit=50" [].

(** [playlist(playlist_id, callback)]. *)
Definition playlist (playlist_id : string) : request :=
  get (format "playlists/{}" [playlist_id]).

(** [edit_playlist(playlist_id, playlist, callback)]. *)
Definition edit_playlist (playlist_id : string) (details : playlist_details) : request :=
  put (format "playlists/{}" [playlist_id]) (to_json details).

Definition playlist_tracks_url (pl : Spt.playlist) : string :=
  format "playlists/{}/tracks?market=from_token&limit=50" [pl_id pl].

(** [playlist_tracks(playlist, callback)]: every track of the playlist. *)
Definition playlist_tracks `{Transport} (fuel : nat) (pl : Spt.playlist)
  : option (fallible (list json)) :=
  get_items fuel (playlist_tracks_url pl) [].

(** [playlist_tracks(playlist)]: a new pagination object on the same URL. *)
Definition playlist_tracks_paged (pl : Spt.playlist) : cursor :=
  cursor_start (playlist_tracks_url pl).

(** [add_to_playlist(playlist_id, track_uris, callback)]: the URIs go in
    the query string, comma-separated, and the POST has no body. *)
Definition add_to_playlist (playlist_id : string) (track_uris : list string) : request :=
  post_empty (format "playlists/{}/tracks?uris={}" [playlist_id; join track_uris ","]).

(** One element of the ["tracks"] array of [remove_from_playlist]. *)
Definition track_entry (track : Z * string) : json :=
  JObject (Obj.of_list [("uri", JString (snd track));
                        ("positions", JArray [JInt (fst track)])]).

(** [remove_from_playlist(playlist_id, track_index_uris, callback)]: one
    entry per (position, URI) pair, in order, DELETEd as
    [{"tracks": [...]}]. *)
Definition remove_from_playlist (playlist_id : string)
    (track_index_uris : list (Z * string)) : request :=
  let tracks := JArray (map track_entry track_index_uris) in
  del (format "playlists/{}/tracks" [playlist_id])
      (JObject (Obj.of_list [("tracks", tracks)])).

End Api.

(** ** What the service reads back from a request *)

Fixpoint traverse_option {A B} (f : A -> option B) (l : list A) : option (list B) :=
  match l with
  | [] => Some []
  | x :: xs =>
      match f x, traverse_option f xs with
      | Some y, Some ys => Some (y :: ys)
      | _, _ => None
      end
  end.

(** A ["tracks"] element read as a (position, URI) pair. *)
Definition read_track_entry (j : json) : option (Z * string) :=
  match at_key "uri" j, at_key "positions" j with
  | Some (JString u), Some (JArray [JInt i]) => Some (i, u)
  | _, _ => None
  end.

Definition read_remove_body (j : json) : option (list (Z * string)) :=
  match at_key "tracks" j with
  | Some (JArray es) => traverse_option read_track_entry es
  | _ => None
  end.

(** The [uris] query parameter of an add request on [playlist_id]. *)
Definition read_add_uris (playlist_id : string) (r : request) : list string :=
  split ","%char (remove (req_url r) ("playlists/" ++ playlist_id ++ "/tracks?uris=")).

(** ** URLs *)

Section Urls.

Lemma playlist_url (id : string) : format "playlists/{}" [id] = "playlists/" ++ id.
Proof.
  change "playlists/{}" with ("playlists/" ++ "{}" ++ "").
  rewrite format_single by reflexivity. now rewrite string_app_nil_r.
Qed.

Lemma tracks_url (id : string) :
  format "playlists/{}/tracks" [id] = "playlists/" ++ id ++ "/tracks".
Proof.
  change "playlists/{}/tracks" with ("playlists/" ++ "{}" ++ "/tracks").
  now rewrite format_single by reflexivity.
Qed.

Lemma tracks_query_url (id : string) :
  format "playlists/{}/tracks?market=from_token&limit=50" [id] =
  "playlists/" ++ id ++ "/tracks?market=from_token&limit=50".
Proof.
  change "playlists/{}/tracks?market=from_token&limit=50"
    with ("playlists/" ++ "{}" ++ "/tracks?market=from_token&limit=50").
  now rewrite format_single by reflexivity.
Qed.

Lemma add_url (id u : string) :
  has_char lbrace id = false ->
  format "playlists/{}/tracks?uris={}" [id; u] = "playlists/" ++ id ++ "/tracks?uris=" ++ u.
Proof.
  intros Hid.
  change "playlists/{}/tracks?uris={}" with ("playlists/" ++ "{}" ++ "/tracks?uris=" ++ "{}" ++ "").
  rewrite format_pair.
  - now rewrite string_app_nil_r.
  - reflexivity.
  - apply no_lbrace_no_placeholder. rewrite !has_char_app, Hid. reflexivity.
Qed.

End Urls.

#[export] Hint Rewrite playlist_url tracks_url tracks_query_url : spt_rw.

Lemma traverse_track_entries (l : list (Z * string)) :
  traverse_option read_track_entry (map Api.track_entry l) = Some l.
Proof.
  induction l as [|[i u] l IH]; [reflexivity|].
  simpl map. simpl traverse_option. rewrite IH. reflexivity.
Qed.

Lemma remove_body_reads (id : string) (l : list (Z * string)) :
  option_map read_remove_body (req_body (Api.remove_from_playlist id l)) = Some (Some l).
Proof. simpl. unfold read_remove_body. simpl. now rewrite traverse_track_entries. Qed.

(** ** Properties of the endpoints *)

(** C1: [remove_from_playlist] sends one DELETE to
    [playlists/<id>/tracks] whose body reads back as exactly the
    (position, URI) pairs it was given, in the same order, one entry per
    pair. *)
Theorem remove_from_playlist_roundtrip (id : string) (l : list (Z * string)) :
  req_verb (Api.remove_from_playlist id l) = DELETE /\
  req_url (Api.remove_from_playlist id l) = "playlists/" ++ id ++ "/tracks" /\
  option_map read_remove_body (req_body (Api.remove_from_playlist id l)) = Some (Some l).
Proof.
  unfold Api.remove_from_playlist, del; cbn [req_verb req_url req_body].
  rewrite tracks_url. repeat split. exact (remove_body_reads id l).
Qed.

(** C3: [add_to_playlist] sends one POST without a body, and when the
    playlist id has no ['{'] and the URIs are a non-empty list of strings
    without commas, the [uris] query parameter decodes to exactly those
    URIs, in order. *)
Theorem add_to_playlist_roundtrip (id : string) (uris : list string) :
  has_char lbrace id = false -> uris <> [] ->
  Forall (fun u => has_char ","%char u = false) uris ->
  req_verb (Api.add_to_playlist id uris) = POST /\
  req_body (Api.add_to_playlist id uris) = None /\
  read_add_uris id (Api.add_to_playlist id uris) = uris.
Proof.
  intros Hid Hne Hall. unfold read_add_uris, Api.add_to_playlist, post_empty.
  cbn [req_verb req_url req_body]. repeat split.
  rewrite add_url by exact Hid. rewrite !string_app_assoc, remove_prefix.
  now apply split_join.
Qed.

(** C2: [create_playlist] never fails and POSTs to [me/playlists] a
    well-formed JSON object whose ["name"] is the name, whose
    ["description"], ["public"] and ["collaborative"] keys are present
    exactly when the optional argument is, with its value, and which has no
    other key. *)
Theorem create_playlist_body (name : string) (description : option string)
    (is_public is_collaborative : option bool) :
  exists kvs,
    Api.create_playlist name description is_public is_collaborative =
      inr (post "me/playlists" (JObject kvs)) /\
    Obj.sorted kvs = true /\
    forall k, Obj.find k kvs =
      if String.eqb k "name" then Some (JString name)
      else if String.eqb k "description" then option_map JString description
      else if String.eqb k "public" then option_map JBool is_public
      else if String.eqb k "collaborative" then option_map JBool is_collaborative
      else None.
Proof.
  unfold Api.create_playlist.
  destruct (set_object (Obj.of_list [("name", JString name)]) "description" description
              eq_refl) as [k1 [E1 [S1 F1]]].
  rewrite E1; cbn [bind_fallible].
  destruct (set_object k1 "public" is_public S1) as [k2 [E2 [S2 F2]]].
  rewrite E2; cbn [bind_fallible].
  destruct (set_object k2 "collaborative" is_collaborative S2) as [k3 [E3 [S3 F3]]].
  rewrite E3; cbn [bind_fallible].
  exists k3. split; [reflexivity|]. split; [exact S3|].
  intros k. rewrite F3, F2, F1. cbn [Obj.of_list fold_left Obj.emplace Obj.find Obj.insert].
  string_eqb_case k "name"; [|string_eqb_case k "description";
    [|string_eqb_case k "public"; [|string_eqb_case k "collaborative"]]];
  destruct description, is_public, is_collaborative; simpl; rewrite_eqb_neq; reflexivity.
Qed.

(** C12: [edit_playlist] PUTs to [playlists/<id>] the four fields of the
    details: name, description, public and collaborative flags. *)
Theorem edit_playlist_request (id : string) (d : playlist_details) :
  req_verb (Api.edit_playlist id d) = PUT /\
  req_url (Api.edit_playlist id d) = "playlists/" ++ id /\
  exists kvs, req_body (Api.edit_playlist id d) = Some (JObject kvs) /\
    Obj.sorted kvs = true /\
    Obj.keys kvs = ["collaborative"; "description"; "name"; "public"] /\
    Obj.find "name" kvs = Some (JString (pd_name d)) /\
    Obj.find "description" kvs = Some (JString (pd_description d)) /\
    Obj.find "public" kvs = Some (JBool (pd_is_public d)) /\
    Obj.find "collaborative" kvs = Some (JBool (pd_collaborative d)).
Proof.
  unfold Api.edit_playlist, put; cbn [req_verb req_url req_body].
  rewrite playlist_url. split; [reflexivity|]. split; [reflexivity|].
  eexists; split; [reflexivity|]. repeat split.
Qed.

(** C9: Every playlist of the user: against a paginated endpoint whose
    first page is [me/playlists?limit=50], [playlists] with one unit of fuel
    per page delivers all items of all pages, in order. *)
Theorem playlists_complete `{T : Transport} `{P : @PagedSource T} (fuel : nat) :
  fst (hd (EmptyString, []) ps_pages) = "me/playlists?limit=50" ->
  length ps_pages <= fuel ->
  Api.playlists fuel = Some (inr (concat (map snd ps_pages))).
Proof.
  intros Hu Hf. unfold Api.playlists. rewrite <- Hu. now apply get_items_complete.
Qed.

(** C15: The pagination object returned by [playlist_tracks(playlist)],
    driven to the end, yields what the callback overload
    [playlist_tracks(playlist, callback)] delivers. *)
Theorem playlist_tracks_paged_equiv `{T : Transport} (fuel : nat) (pl : Spt.playlist) :
  cursor_run fuel (Api.playlist_tracks_paged pl) = Api.playlist_tracks fuel pl.
Proof. apply cursor_run_get_items. Qed.

(** C17: [lib::fmt::format] substitutes each argument into the text
    produced so far, so for every playlist id that contains ["{}"] the
    comma-joined URIs land inside the id: the request of [add_to_playlist]
    goes to a wrong path and carries a literal ["{}"] as its [uris]. *)
Theorem add_to_playlist_placeholder_id (pre post : string) (uris : list string) :
  has_char lbrace pre = false ->
  req_url (Api.add_to_playlist (pre ++ "{}" ++ post) uris) =
  "playlists/" ++ pre ++ join uris "," ++ post ++ "/tracks?uris={}".
Proof.
  intros Hpre. unfold Api.add_to_playlist, post_empty. cbn [req_url].
  change "playlists/{}/tracks?uris={}" with ("playlists/" ++ "{}" ++ "/tracks?uris={}").
  rewrite format_cons by reflexivity.
  replace ("playlists/" ++ (pre ++ "{}" ++ post) ++ "/tracks?uris={}")
    with (("playlists/" ++ pre) ++ "{}" ++ (post ++ "/tracks?uris={}"))
    by (now rewrite <- !string_app_assoc).
  rewrite format_single.
  - now rewrite <- !string_app_assoc.
  - apply no_lbrace_no_placeholder. now rewrite has_char_app, Hpre.
Qed.

(** C18: An empty list of URIs is not rejected: [add_to_playlist] still
    sends its POST, whose [uris] parameter is empty and decodes as one empty
    URI. *)
Theorem add_to_playlist_empty (id : string) :
  has_char lbrace id = false ->
  req_url (Api.add_to_playlist id []) = "playlists/" ++ id ++ "/tracks?uris=" /\
  read_add_uris id (Api.add_to_playlist id []) = [""].
Proof.
  intros Hid. unfold read_add_uris, Api.add_to_playlist, post_empty.
  cbn [req_url]. rewrite add_url by exact Hid. cbn [join].
  rewrite string_app_nil_r. split; [reflexivity|].
  rewrite <- (string_app_nil_r ("playlists/" ++ id ++ "/tracks?uris=")) at 1.
  now rewrite remove_prefix.
Qed.

(** C16: [playlist_tracks] follows ["next"] links without remembering the
    pages it has fetched: if the service answers the first page with a link
    back to that page, the callback is never called, whatever the fuel. *)
Theorem playlist_tracks_cycle `{T : Transport} (pl : Spt.playlist) (xs : list json) :
  respond (get (Api.playlist_tracks_url pl)) =
    inr (page_json xs (Some (Api.playlist_tracks_url pl))) ->
  forall fuel, Api.playlist_tracks fuel pl = None.
Proof. intros Hr fuel. exact (get_items_cycle _ xs Hr fuel []). Qed.

(** C19: Against the Web API's offset paging of [n] playlists, [playlists]
    does not reach its callback with fewer than [page_count n = max 1
    (ceil (n / 50))] fetches: it sends one request per page. *)
Theorem playlists_page_requests (items : list json) (fuel : nat) :
  fuel < page_count (length items) ->
  @Api.playlists (offset_service (spotify_page_url "me/playlists?limit=50") items) fuel = None.
Proof.
  intros Hf. exact (get_items_offset_short _ (spotify_page_url_inj _) items fuel Hf).
Qed.

(** C20: Every track of a playlist: against the Web API's offset paging
    of [n] tracks, rooted at the literal URL
    [playlists/<id>/tracks?market=from_token&limit=50], [playlist_tracks]
    finishes after [page_count n] fetches and delivers the tracks in
    order. *)
Theorem playlist_tracks_offset_paged (pl : Spt.playlist) (items : list json) (fuel : nat) :
  page_count (length items) <= fuel ->
  @Api.playlist_tracks
    (offset_service
       (spotify_page_url ("playlists/" ++ pl_id pl ++ "/tracks?market=from_token&limit=50"))
       items)
    fuel pl = Some (inr items).
Proof.
  intros Hf. unfold Api.playlist_tracks, Api.playlist_tracks_url. rewrite tracks_query_url.
  exact (get_items_offset _ (spotify_page_url_inj _) items fuel Hf).
Qed.

(** C23: A page that fails ends [playlists] with its error: when the first
    pages are served and linked and the next one is an HTTP error or has no
    ["items"] array, the callback receives that error (the items already
    fetched are dropped) after one fetch more than the pages before it. *)
Theorem playlists_page_error `{T : Transport} (pages : list (string * list json))
    (u e : string) (fuel : nat) :
  fst (hd (u, []) pages) = "me/playlists?limit=50" -> serves_to pages u ->
  page_failure (respond (get u)) = Some e -> length pages < fuel ->
  Api.playlists fuel = Some (inl e).
Proof.
  intros Hu Hs Hf Hlt. unfold Api.playlists. rewrite <- Hu.
  replace fuel with (length pages + S (fuel - S (length pages))) by lia.
  rewrite (get_items_serves_to pages u _ [] Hs). now apply get_items_failure.
Qed.

Definition body_wf (r : request) : bool :=
  match req_body r with
  | Some b => wf b
  | None => true
  end.

(** The text the HTTP layer puts on the wire for a body: [json::dump()]. *)
Definition body_text (r : request) : option string := option_map dump (req_body r).

Section BodyLemmas.

(** A well-formed body survives the trip through its text. *)
Lemma body_text_parse (r : request) :
  body_wf r = true -> option_map parse (body_text r) = option_map Some (req_body r).
Proof.
  unfold body_wf, body_text. destruct (req_body r); [|reflexivity].
  intros H. cbn [option_map]. now rewrite parse_dump.
Qed.

End BodyLemmas.

(** ** Witnesses *)

Lemma add_to_playlist_roundtrip_witness :
  read_add_uris "37i9dQZF1DXcBWIGoYBM5M"
    (Api.add_to_playlist "37i9dQZF1DXcBWIGoYBM5M" ["spotify:track:1"; "spotify:track:2"]) =
  ["spotify:track:1"; "spotify:track:2"].
Proof.
  apply (add_to_playlist_roundtrip "37i9dQZF1DXcBWIGoYBM5M" ["spotify:track:1"; "spotify:track:2"]);
    [reflexivity | discriminate | repeat constructor].
Defined.

Lemma add_to_playlist_empty_witness :
  read_add_uris "pl" (Api.add_to_playlist "pl" []) = [""].
Proof. apply (add_to_playlist_empty "pl"). reflexivity. Defined.

Lemma playlists_complete_witness :
  @Api.playlists (serve_pages two_pages) 2 =
  Some (inr [JString "p1"; JString "p2"; JString "p3"]).
Proof.
  exact (playlists_complete (T := serve_pages two_pages)
           (P := serve_pages_source two_pages two_pages_nodup two_pages_nonempty)
           2 eq_refl ltac:(simpl; lia)).
Defined.

Definition looping_tracks : Transport :=
  fun _ => inr (page_json [JString "t"]
                  (Some "playlists/pl/tracks?market=from_token&limit=50")).

Lemma playlist_tracks_cycle_witness :
  @Api.playlist_tracks looping_tracks 1000 (mk_playlist "pl" "n" "" true false) = None.
Proof.
  exact (playlist_tracks_cycle (T := looping_tracks) (mk_playlist "pl" "n" "" true false)
           [JString "t"] eq_refl 1000).
Defined.

Definition hundred_twenty : list json := repeat JNull 120.

Lemma playlists_page_requests_witness :
  @Api.playlists (offset_service (spotify_page_url "me/playlists?limit=50") hundred_twenty) 2 = None.
Proof. exact (playlists_page_requests hundred_twenty 2 ltac:(vm_compute; lia)). Defined.

Lemma playlist_tracks_offset_paged_witness :
  @Api.playlist_tracks
    (offset_service
       (spotify_page_url "playlists/pl/tracks?market=from_token&limit=50") hundred_twenty)
    3 (mk_playlist "pl" "n" "" true false) = Some (inr hundred_twenty).
Proof.
  exact (playlist_tracks_offset_paged (mk_playlist "pl" "n" "" true false) hundred_twenty 3
           ltac:(vm_compute; lia)).
Defined.

Lemma add_to_playlist_placeholder_id_witness :
  req_url (Api.add_to_playlist "a{}b" ["spotify:track:1"; "spotify:track:2"]) =
  "playlists/aspotify:track:1,spotify:track:2b/tracks?uris={}".
Proof.
  exact (add_to_playlist_placeholder_id "a" "b" ["spotify:track:1"; "spotify:track:2"] eq_refl).
Defined.

Definition failing_second_page : Transport :=
  fun r => if String.eqb (req_url r) "me/playlists?limit=50"
           then inr (page_json [JString "p1"] (Some "me/playlists?offset=50&limit=50"))
           else inl "500".

Lemma playlists_page_error_witness :
  @Api.playlists failing_second_page 2 = Some (inl "500").
Proof.
  exact (playlists_page_error (T := failing_second_page)
           [("me/playlists?limit=50", [JString "p1"])] "me/playlists?offset=50&limit=50" "500" 2
           eq_refl (conj eq_refl I) eq_refl ltac:(simpl; lia)).
Defined.

