(* ===== verification/Settings.v ===== *)
(** * The settings the main menu clears and saves ([lib::settings])

    The log-out handler of src/src/menu/mainmenu.cpp calls three members of
    [lib::settings]: [remove_client] (forget the application's client id and
    secret), [remove_tokens] (forget the access and refresh tokens) and
    [save] (write the settings file).  [lib::settings] lives outside src/;
    its contract is stated here as the interface [SettingsLaws], against
    which the menu's theorems are proved, and [lib_settings] is a model of
    the class that discharges it. *)

From Stdlib Require Import String List.
From S2P Require Import Prelude.
Import ListNotations.
Open Scope string_scope.

(** The operations the menu uses, and what can be observed of a settings
    object: the client credentials, the tokens, and what the settings file
    on disk holds. *)
Class SettingsOps (S : Type) := {
  client : S -> string * string;
  tokens : S -> string * string;
  persisted : S -> (string * string) * (string * string);
  remove_client : S -> S;
  remove_tokens : S -> S;
  save : S -> S
}.

Class SettingsLaws (S : Type) `{SettingsOps S} := {
  client_remove_client s : client (remove_client s) = ("", "");
  tokens_remove_client s : tokens (remove_client s) = tokens s;
  persisted_remove_client s : persisted (remove_client s) = persisted s;
  client_remove_tokens s : client (remove_tokens s) = client s;
  tokens_remove_tokens s : tokens (remove_tokens s) = ("", "");
  persisted_remove_tokens s : persisted (remove_tokens s) = persisted s;
  client_save s : client (save s) = client s;
  tokens_save s : tokens (save s) = tokens s;
  persisted_save s : persisted (save s) = (client s, tokens s)
}.

(** [lib::settings::account] and the settings object with its file. *)
Record account : Type := mk_account {
  client_id : string;
  client_secret : string;
  access_token : string;
  refresh_token : string
}.

Record lib_settings : Type := mk_lib_settings {
  current : account;
  on_disk : account
}.

#[export] Instance lib_settings_ops : SettingsOps lib_settings := {
  client s := (client_id (current s), client_secret (current s));
  tokens s := (access_token (current s), refresh_token (current s));
  persisted s := ((client_id (on_disk s), client_secret (on_disk s)),
                  (access_token (on_disk s), refresh_token (on_disk s)));
  remove_client s :=
    let a := current s in
    mk_lib_settings (mk_account "" "" (access_token a) (refresh_token a)) (on_disk s);
  remove_tokens s :=
    let a := current s in
    mk_lib_settings (mk_account (client_id a) (client_secret a) "" "") (on_disk s);
  save s := mk_lib_settings (current s) (current s)
}.

#[export] Instance lib_settings_laws : SettingsLaws lib_settings.
Proof. split; reflexivity. Qed.
