(* ===== verification/MainMenu.v ===== *)
(** * The main menu (src/src/menu/mainmenu.cpp)

    [MainMenu] is a [QMenu] with an update notice, a "Device" submenu that
    is filled from the Web API each time it opens, a settings entry, an
    optional developer submenu, and log-out and quit entries.  The model
    keeps what its handlers change: the update-notice action, the actions
    of the device submenu (each with an identity, since the set-device
    callback captures a pointer to one of them), the settings object, the
    status-bar message and message boxes shown, whether the application was
    asked to quit, and the Web API calls whose callbacks are still to run.
    A ghost field [shown] records the devices reply the submenu was last
    built from; no handler reads it, and [menu_shows] states what the
    submenu should hold for it.  The constructor, [refreshDevices] and its
    callback (with its loop removing the old entries), [deviceSelected]
    and its callback, the log-out box and lambda, and the update notice's
    link are one definition each.  This file proves what each handler does
    on its own; [MenuLoop] runs them in the event loop. *)

From Stdlib Require Import String List Lia Bool Arith.
From S2P Require Import Prelude Json Settings.
Import ListNotations.
Open Scope string_scope.

(** [lib::spt::device], the fields the menu reads. *)
Record device : Type := mk_device {
  dev_id : string;
  dev_name : string;
  dev_is_active : bool
}.

(** A [QAction] of the device submenu: its identity and the properties
    the menu sets ([setCheckable], [setChecked], [setDisabled],
    [setData]). *)
Record qaction : Type := mk_qaction {
  act_id : nat;
  act_text : string;
  act_checkable : bool;
  act_checked : bool;
  act_enabled : bool;
  act_data : string
}.

(** The update-notice action [about]. *)
Record about_action : Type := mk_about {
  ab_text : string;
  ab_enabled : bool;
  ab_visible : bool;
  ab_opens_release_page : bool   (* its [triggered] is connected to [openUrl] *)
}.

(** The entries of the menu, in the order the constructor adds them. *)
Inductive entry : Type :=
| EAbout | EDeviceMenu | ESettings | EDeveloperMenu | ESeparator | ELogOut | EQuit.

(** A Web API call whose callback has not run yet: [spotify.devices] from
    [refreshDevices], [spotify.setDevice] from [deviceSelected] with the
    action it captured and the device id it sent. *)
Inductive call : Type :=
| CallDevices
| CallSetDevice (action : nat) (device_id : string).

(** The button [box.clickedButton()] returns; [Closed] is [nullptr]. *)
Inductive dialog_result : Type := ClearEverything | OnlyLogOut | Cancel | Closed.

Record menu_state (S : Type) : Type := mk_state {
  entries : list entry;
  about : about_action;
  device_menu : option (list qaction);   (* [None] is [deviceMenu == nullptr] *)
  next_action : nat;                     (* identity of the next action created *)
  settings : S;
  status : option (string * bool);       (* last [setStatus(message, important)] *)
  infos : list (string * string);        (* [QMessageBox::information] shown *)
  quit : bool;                           (* [QCoreApplication::quit] called *)
  pending : list call;
  shown : option (list device)           (* ghost: the reply the submenu was last built from *)
}.
Arguments mk_state {S}.
Arguments entries {S}. Arguments about {S}. Arguments device_menu {S}.
Arguments next_action {S}. Arguments settings {S}. Arguments status {S}.
Arguments infos {S}. Arguments quit {S}. Arguments pending {S}. Arguments shown {S}.

Definition app_release_url : string :=
  "https://api.github.com/repos/kraxarn/spotify-qt/releases/latest".

Definition no_devices_text : string := "No devices found".
Definition logged_out_info : string * string :=
  ("Logged out", "You are now logged out, the application will now close").

(** [json.object()["tag_name"].toString()]: the empty string when the key
    is missing or is not a string. *)
Definition tag_name (release : json) : string :=
  match at_key "tag_name" release with
  | Some (JString s) => s
  | _ => ""
  end.

(** The page the update notice opens (line 28). *)
Definition release_page_url : string :=
  "https://github.com/kraxarn/spotify-qt/releases/latest".

(** The user clicks the update notice: a hidden or disabled action cannot
    be clicked, and only an action whose [triggered] was connected to the
    lambda of lines 26-30 opens a page.  The result is the URL opened. *)
Definition about_clicked (a : about_action) : option string :=
  if ab_visible a && ab_enabled a && ab_opens_release_page a
  then Some release_page_url else None.

(** [QMessageBox::ButtonRole]. *)
Inductive button_role : Type := AcceptRole | RejectRole.

Record message_box : Type := mk_box {
  box_title : string;
  box_text : string;
  box_buttons : list (string * button_role)   (* in the order [addButton] adds them *)
}.

(** The box of the log-out lambda (lines 66-72). *)
Definition log_out_box : message_box :=
  mk_box "Are you sure?"
    "Do you also want to clear your application credentials or only log out?"
    [("Clear everything", AcceptRole); ("Only log out", AcceptRole); ("Cancel", RejectRole)].

(** [box.clickedButton()] compared with [clearAll], [logOut] and [cancel]:
    [Some i] is the [i]-th button of the box, [None] is [nullptr] (the box
    closed without a button). *)
Definition clicked_result (clicked : option nat) : dialog_result :=
  match clicked with
  | Some i => nth i [ClearEverything; OnlyLogOut; Cancel] Closed
  | None => Closed
  end.

(** [QWidget::removeAction]: the action leaves the widget's list. *)
Definition remove_action (a : qaction) (acts : list qaction) : list qaction :=
  filter (fun b => negb (Nat.eqb (act_id b) (act_id a))) acts.

(** Lines 108-110: [actions()] returns a copy of the list, and the loop
    removes each action of that copy from the submenu. *)
Definition clear_actions (acts : list qaction) : list qaction :=
  fold_left (fun menu a => remove_action a menu) acts acts.

(** [QAction::setChecked] has no effect on an action that is not
    checkable. *)
Definition set_checked (b : bool) (a : qaction) : qaction :=
  mk_qaction (act_id a) (act_text a) (act_checkable a)
             (if act_checkable a then b else act_checked a)
             (act_enabled a) (act_data a).

Definition set_disabled (b : bool) (a : qaction) : qaction :=
  mk_qaction (act_id a) (act_text a) (act_checkable a) (act_checked a) (negb b) (act_data a).

(** Triggering a checkable [QAction] toggles it before [triggered] is
    emitted. *)
Definition toggle (a : qaction) : qaction := set_checked (negb (act_checked a)) a.

(** Apply [f] to the action with identity [id], wherever it is. *)
Definition update_action (id : nat) (f : qaction -> qaction) (acts : list qaction)
  : list qaction :=
  map (fun a => if Nat.eqb (act_id a) id then f a else a) acts.

Fixpoint replace_nth {A} (i : nat) (x : A) (l : list A) : list A :=
  match l, i with
  | [], _ => []
  | _ :: rest, O => x :: rest
  | y :: rest, S i' => y :: replace_nth i' x rest
  end.

Fixpoint remove_nth {A} (i : nat) (l : list A) : list A :=
  match l, i with
  | [], _ => []
  | _ :: rest, O => rest
  | y :: rest, S i' => y :: remove_nth i' rest
  end.

Section MainMenu.
Context {St : Type} `{SettingsOps St}.
(** [APP_VERSION], the version the program was built as. *)
Context (app_version : string).
(** [lib::developer_mode::enabled]. *)
Context (developer_mode : bool).
(** Whether [MainWindow::find(parentWidget())] finds the main window. *)
Context (window : bool).

Definition checking_about : about_action :=
  mk_about "Checking for updates..." false true false.

(** Lines 16-31 of the constructor, given the [tag_name] of the latest
    release. *)
Definition update_about (latest : string) : about_action :=
  let is_latest := String.eqb latest "" || String.eqb latest app_version in
  if String.eqb latest "" || is_latest
  then mk_about (ab_text checking_about) (ab_enabled checking_about) false
                (ab_opens_release_page checking_about)
  else mk_about ("Update found: " ++ latest) true true true.

Definition menu_entries : list entry :=
  [EAbout; EDeviceMenu; ESettings] ++
  (if developer_mode then [EDeveloperMenu] else []) ++
  [ESeparator; ELogOut; EQuit].

(** [MainMenu::MainMenu]: [main_window] is the latest-release document
    [getJson] returns when the parent is a [MainWindow], [None] when the
    [dynamic_cast] fails. *)
Definition main_menu (main_window : option json) (st : St) : menu_state St :=
  mk_state menu_entries
    (match main_window with
     | Some release => update_about (tag_name release)
     | None => checking_about
     end)
    (Some []) 0 st None [] false [] None.

(** [aboutToShow] of the device submenu: [refreshDevices] sends
    [spotify.devices]. *)
Definition refresh_devices (s : menu_state St) : menu_state St :=
  mk_state (entries s) (about s) (device_menu s) (next_action s) (settings s)
    (status s) (infos s) (quit s) (pending s ++ [CallDevices]) (shown s).

(** The action [refreshDevices] adds for one device. *)
Definition device_action (id : nat) (d : device) : qaction :=
  set_disabled (dev_is_active d)
    (set_checked (dev_is_active d)
       (mk_qaction id (dev_name d) true false true (dev_id d))).

Fixpoint device_actions (id : nat) (ds : list device) : list qaction :=
  match ds with
  | [] => []
  | d :: rest => device_action id d :: device_actions (S id) rest
  end.

Definition no_devices_action (id : nat) : qaction :=
  set_disabled true (mk_qaction id no_devices_text false false true "").

(** The entries the callback adds for a reply, with the next identity. *)
Definition new_entries (n : nat) (devices : list device) : list qaction * nat :=
  match devices with
  | [] => ([no_devices_action n], S n)
  | _ => (device_actions n devices, n + length devices)
  end.

(** The callback of [spotify.devices] in [refreshDevices]: the loop of
    lines 109-110 removes the actions of the list [actions()] returned,
    then [addAction] appends the new entries. *)
Definition on_devices (devices : list device) (s : menu_state St) : menu_state St :=
  match device_menu s with
  | None => s
  | Some old =>
      let '(acts, next) := new_entries (next_action s) devices in
      mk_state (entries s) (about s) (Some (clear_actions old ++ acts)%list) next (settings s)
        (status s) (infos s) (quit s) (pending s) (Some devices)
  end.

(** What the callback is meant to do: show the new entries instead of the
    old ones. *)
Definition replace_devices (devices : list device) (s : menu_state St) : menu_state St :=
  match device_menu s with
  | None => s
  | Some _ =>
      let '(acts, next) := new_entries (next_action s) devices in
      mk_state (entries s) (about s) (Some acts) next (settings s)
        (status s) (infos s) (quit s) (pending s) (Some devices)
  end.

(** [MainMenu::deviceSelected(action)]: sends [spotify.setDevice] with the
    device id stored in the action. *)
Definition device_selected (a : qaction) (s : menu_state St) : menu_state St :=
  mk_state (entries s) (about s) (device_menu s) (next_action s) (settings s)
    (status s) (infos s) (quit s) (pending s ++ [CallSetDevice (act_id a) (act_data a)]) (shown s).

(** The user clicks the [i]-th action of the device submenu: a disabled
    action ignores the click; otherwise Qt toggles it and [triggered]
    reaches [deviceSelected]. *)
Definition trigger (i : nat) (s : menu_state St) : menu_state St :=
  match device_menu s with
  | None => s
  | Some acts =>
      match nth_error acts i with
      | None => s
      | Some a =>
          if act_enabled a then
            let a' := toggle a in
            device_selected a'
              (mk_state (entries s) (about s) (Some (replace_nth i a' acts)) (next_action s)
                 (settings s) (status s) (infos s) (quit s) (pending s) (shown s))
          else s
      end
  end.

(** The callback of [spotify.setDevice] in [deviceSelected], for the
    action with identity [aid]. *)
Definition on_set_device (aid : nat) (status_text : string) (s : menu_state St)
  : menu_state St :=
  if negb (String.eqb status_text "") then
    mk_state (entries s) (about s)
      (option_map (update_action aid (set_checked false)) (device_menu s))
      (next_action s) (settings s)
      (if window then Some ("Failed to set device: " ++ status_text, true) else status s)
      (infos s) (quit s) (pending s) (shown s)
  else
    mk_state (entries s) (about s)
      (option_map (update_action aid (set_disabled true)) (device_menu s))
      (next_action s) (settings s) (status s) (infos s) (quit s) (pending s) (shown s).

(** The lambda connected to the log-out action, once the dialog returned
    [result]. *)
Definition log_out (result : dialog_result) (s : menu_state St) : menu_state St :=
  match result with
  | Closed | Cancel => s
  | _ =>
      let st1 := match result with
                 | ClearEverything => remove_client (settings s)
                 | _ => settings s
                 end in
      let st2 := match result with
                 | ClearEverything | OnlyLogOut => remove_tokens st1
                 | _ => st1
                 end in
      mk_state (entries s) (about s) (device_menu s) (next_action s) (save st2)
        (status s) (infos s ++ [logged_out_info]) true (pending s) (shown s)
  end.

(** The quit action: [QCoreApplication::quit]. *)
Definition quit_app (s : menu_state St) : menu_state St :=
  mk_state (entries s) (about s) (device_menu s) (next_action s) (settings s)
    (status s) (infos s) true (pending s) (shown s).

(** The settings dialog edits the settings object it is given. *)
Definition settings_edited (st : St) (s : menu_state St) : menu_state St :=
  mk_state (entries s) (about s) (device_menu s) (next_action s) st
    (status s) (infos s) (quit s) (pending s) (shown s).

(** A pending call leaves the queue when its callback runs. *)
Definition take_pending (n : nat) (s : menu_state St) : menu_state St :=
  mk_state (entries s) (about s) (device_menu s) (next_action s) (settings s)
    (status s) (infos s) (quit s) (remove_nth n (pending s)) (shown s).

End MainMenu.

(** ** The clearing loop *)

Section ClearLoop.
Context {St : Type} `{SettingsOps St}.

(** Removing, one after the other, actions that cover every identity of
    the list leaves nothing. *)
Lemma fold_remove_all (xs menu : list qaction) :
  (forall b, In b menu -> exists a, In a xs /\ act_id a = act_id b) ->
  fold_left (fun m a => remove_action a m) xs menu = [].
Proof.
  revert menu. induction xs as [|a xs IH]; intros menu Hcov; cbn [fold_left].
  - destruct menu as [|b menu]; [reflexivity|].
    destruct (Hcov b (or_introl eq_refl)) as (? & [] & _).
  - apply IH. intros b Hb. unfold remove_action in Hb. apply filter_In in Hb as [Hb Hne].
    destruct (Hcov b Hb) as (a' & [<- | Ha'] & E); [|now exists a'].
    rewrite E, Nat.eqb_refl in Hne. discriminate.
Qed.

Lemma clear_actions_nil (acts : list qaction) : clear_actions acts = [].
Proof. apply fold_remove_all. intros b Hb. now exists b. Qed.

(** C26: The devices callback does what it means to: whatever the submenu
    held, including actions with the same identity, the loop over the copy
    returned by [actions()] removes every one of them, so the submenu shows
    exactly the entries of the new reply. *)
Theorem on_devices_replaces (ds : list device) (s : menu_state St) :
  on_devices ds s = replace_devices ds s.
Proof.
  unfold on_devices, replace_devices. destruct (device_menu s) as [old|]; [|reflexivity].
  unfold clear_actions. rewrite fold_remove_all; [reflexivity|].
  intros b Hb. now exists b.
Qed.

Lemma on_devices_eq (ds : list device) (s : menu_state St) :
  on_devices ds s = replace_devices ds s.
Proof.
  unfold on_devices, replace_devices. destruct (device_menu s); [|reflexivity].
  now rewrite clear_actions_nil.
Qed.

End ClearLoop.

(** ** The shape of the device submenu *)

Section MenuShape.

(** The action shown for device [d]. *)
Definition mirrors (d : device) (a : qaction) : Prop :=
  act_text a = dev_name d /\ act_data a = dev_id d /\ act_checkable a = true /\
  (dev_is_active d = true -> act_enabled a = false).

Definition placeholder (a : qaction) : Prop :=
  act_text a = no_devices_text /\ act_checkable a = false /\ act_enabled a = false.

(** The submenu shows the reply it was last built from: nothing before
    the first reply, the lone disabled "No devices found" entry for an
    empty one, and otherwise one entry per device of that reply, in order. *)
Definition menu_shows (shown : option (list device)) (acts : list qaction) : Prop :=
  match shown with
  | None => acts = []
  | Some [] => exists a, acts = [a] /\ placeholder a
  | Some ds => Forall2 mirrors ds acts
  end.

(** What the handlers may do to an existing action: change its check
    state, or disable it. *)
Definition weaker (a a' : qaction) : Prop :=
  act_id a' = act_id a /\ act_text a' = act_text a /\ act_data a' = act_data a /\
  act_checkable a' = act_checkable a /\ (act_enabled a' = true -> act_enabled a = true).

Lemma weaker_refl (a : qaction) : weaker a a.
Proof. repeat split; auto. Qed.

Lemma set_checked_weaker (b : bool) (a : qaction) : weaker a (set_checked b a).
Proof. repeat split; auto. Qed.

Lemma toggle_weaker (a : qaction) : weaker a (toggle a).
Proof. apply set_checked_weaker. Qed.

Lemma set_disabled_weaker (a : qaction) : weaker a (set_disabled true a).
Proof. repeat split; simpl; auto. discriminate. Qed.

Lemma weaker_mirrors (d : device) (a a' : qaction) :
  mirrors d a -> weaker a a' -> mirrors d a'.
Proof.
  intros (H1 & H2 & H3 & H4) (W0 & W1 & W2 & W3 & W4).
  repeat split; try congruence.
  intros Ha. destruct (act_enabled a') eqn:E; [|reflexivity].
  rewrite (H4 Ha) in W4. symmetry. now apply W4.
Qed.

Lemma weaker_placeholder (a a' : qaction) : placeholder a -> weaker a a' -> placeholder a'.
Proof.
  intros (H1 & H2 & H3) (W0 & W1 & W2 & W3 & W4). repeat split; try congruence.
  destruct (act_enabled a'); [|reflexivity]. rewrite H3 in W4. symmetry. now apply W4.
Qed.

Lemma Forall2_mirrors_weaker ds acts acts' :
  Forall2 mirrors ds acts -> Forall2 weaker acts acts' -> Forall2 mirrors ds acts'.
Proof.
  intros H. revert acts'. induction H; intros acts' W; inversion W; subst;
    constructor; eauto using weaker_mirrors.
Qed.

Lemma menu_shows_weaker (h : option (list device)) (acts acts' : list qaction) :
  menu_shows h acts -> Forall2 weaker acts acts' -> menu_shows h acts'.
Proof.
  destruct h as [[|d ds]|]; cbn [menu_shows].
  - intros (a & -> & Hp) W. inversion W as [|? a' ? ? Wa Wn]; subst. inversion Wn; subst.
    exists a'. split; [reflexivity|]. eauto using weaker_placeholder.
  - eauto using Forall2_mirrors_weaker.
  - intros -> W. now inversion W.
Qed.

Lemma update_action_weaker (id : nat) (f : qaction -> qaction) (acts : list qaction) :
  (forall a, weaker a (f a)) -> Forall2 weaker acts (update_action id f acts).
Proof.
  intros Hf. induction acts as [|a acts IH]; simpl; constructor; [|exact IH].
  destruct (Nat.eqb (act_id a) id); [apply Hf | apply weaker_refl].
Qed.

Lemma replace_nth_weaker (i : nat) (a a' : qaction) (acts : list qaction) :
  nth_error acts i = Some a -> weaker a a' -> Forall2 weaker acts (replace_nth i a' acts).
Proof.
  revert i. induction acts as [|b acts IH]; intros [|i] Hi W; simpl in *; try discriminate.
  - injection Hi as ->. constructor; [exact W|].
    clear. induction acts; constructor; auto using weaker_refl.
  - constructor; [apply weaker_refl | now apply IH].
Qed.

Lemma device_actions_mirror (n : nat) (ds : list device) :
  Forall2 mirrors ds (device_actions n ds).
Proof.
  revert n. induction ds as [|d ds IH]; intros n; constructor; [|apply IH].
  unfold device_action, mirrors; simpl. repeat split. now intros ->.
Qed.

End MenuShape.

#[export] Hint Resolve weaker_refl set_checked_weaker toggle_weaker set_disabled_weaker
  update_action_weaker device_actions_mirror : spt.

(** ** The event loop keeps the submenu well formed *)

Section MenuInvariant.
Context {St : Type} `{SettingsOps St} (window : bool).

(** The submenu exists and shows the reply recorded in [shown]. *)
Definition menu_inv (s : menu_state St) : Prop :=
  exists acts, device_menu s = Some acts /\ menu_shows (shown s) acts.

Lemma menu_inv_same (s s' : menu_state St) :
  device_menu s' = device_menu s -> shown s' = shown s -> menu_inv s -> menu_inv s'.
Proof. intros E E' (acts & Hm & Hok). exists acts. now rewrite E, E'. Qed.

Lemma menu_inv_weaker (s s' : menu_state St) (acts acts' : list qaction) :
  device_menu s = Some acts -> menu_shows (shown s) acts -> device_menu s' = Some acts' ->
  shown s' = shown s -> Forall2 weaker acts acts' -> menu_inv s'.
Proof.
  intros _ Hok E E' W. exists acts'. rewrite E'. split; [exact E | eauto using menu_shows_weaker].
Qed.

Lemma on_devices_menu_inv (ds : list device) (s : menu_state St) :
  menu_inv s -> menu_inv (on_devices ds s).
Proof.
  intros (acts & Hm & _). rewrite !on_devices_eq; unfold replace_devices, new_entries. rewrite Hm.
  destruct ds as [|d ds]; eexists; (split; [reflexivity|]); cbn [shown menu_shows].
  - eexists; split; [reflexivity|]. repeat split.
  - apply device_actions_mirror.
Qed.

Lemma trigger_menu_inv (i : nat) (s : menu_state St) :
  menu_inv s -> menu_inv (trigger i s).
Proof.
  intros Hinv. destruct Hinv as (acts & Hm & Hok). unfold trigger. rewrite Hm.
  destruct (nth_error acts i) as [a|] eqn:Hi; [|now exists acts].
  destruct (act_enabled a); [|now exists acts].
  eapply menu_inv_weaker; [exact Hm | exact Hok | reflexivity | reflexivity |].
  apply replace_nth_weaker with (a := a); auto using toggle_weaker.
Qed.

Lemma on_set_device_menu_inv (aid : nat) (st : string) (s : menu_state St) :
  menu_inv s -> menu_inv (on_set_device window aid st s).
Proof.
  intros (acts & Hm & Hok). unfold on_set_device.
  destruct (negb (String.eqb st "")); simpl; rewrite Hm; simpl;
    (eapply menu_inv_weaker; [exact Hm | exact Hok | reflexivity | reflexivity |]);
    apply update_action_weaker; auto with spt.
Qed.

End MenuInvariant.

(** ** Properties of the handlers *)

Section Handlers.
Context {St : Type} `{SettingsLaws St}.
Context (app_version : string) (developer_mode window : bool).

(** C4: Log out, confirmed: "Clear everything" forgets the client
    credentials and the tokens, "Only log out" forgets the tokens and keeps
    the client credentials; in both cases the result is saved to disk, the
    "Logged out" box is shown, the application quits, and the menu and the
    pending calls are untouched. *)
Theorem log_out_confirmed (result : dialog_result) (s : menu_state St) :
  result = ClearEverything \/ result = OnlyLogOut ->
  let s' := log_out result s in
  tokens (settings s') = ("", "") /\
  client (settings s') =
    (if result is ClearEverything then ("", "") else client (settings s)) /\
  persisted (settings s') = (client (settings s'), tokens (settings s')) /\
  infos s' = (infos s ++ [logged_out_info])%list /\ quit s' = true /\
  device_menu s' = device_menu s /\ pending s' = pending s.
Proof.
  intros [-> | ->]; cbn zeta; unfold log_out; simpl;
    rewrite persisted_save, ?client_save, ?tokens_save, ?tokens_remove_tokens,
      ?client_remove_tokens, ?client_remove_client;
    repeat split.
Qed.

(** C13: The update notice stays hidden when the latest release has an
    empty tag (no release, no network, or no [tag_name] key) or the tag
    equals [APP_VERSION]. *)
Theorem update_about_hidden (latest : string) :
  latest = "" \/ latest = app_version ->
  ab_visible (update_about app_version latest) = false /\
  ab_opens_release_page (update_about app_version latest) = false.
Proof.
  intros Hl. unfold update_about.
  assert (E : (String.eqb latest "" || (String.eqb latest "" || String.eqb latest app_version))
              = true).
  { destruct Hl as [-> | ->]; [reflexivity|]. rewrite String.eqb_refl.
    now rewrite !orb_true_r. }
  rewrite E. split; reflexivity.
Qed.

(** C21: The update notice opens the release page exactly when the main
    window was found and its latest-release document names a tag that is
    neither empty nor the running version; otherwise clicking it does
    nothing. *)
Theorem about_clicked_spec (main_window : option json) (st : St) :
  about_clicked (about (main_menu app_version developer_mode main_window st)) =
  match main_window with
  | Some release =>
      if String.eqb (tag_name release) "" || String.eqb (tag_name release) app_version
      then None else Some release_page_url
  | None => None
  end.
Proof.
  destruct main_window as [release|]; [|reflexivity]. cbn [main_menu about].
  unfold update_about. rewrite orb_assoc, orb_diag.
  destruct (_ || _); reflexivity.
Qed.

Lemma log_out_accepted_changes (result : dialog_result) (s : menu_state St) :
  result = ClearEverything \/ result = OnlyLogOut -> log_out result s <> s.
Proof.
  intros Hr E. apply (f_equal (fun s => length (infos s))) in E.
  destruct Hr as [-> | ->]; simpl in E; rewrite length_app in E; simpl in E; lia.
Qed.

(** C22: The roles of the log-out box match what the handler does: the
    button with the reject role, or closing the box, leaves the state as
    it was, and each button with the accept role logs out. *)
Theorem log_out_box_roles (s : menu_state St) (i : nat) :
  i < length (box_buttons log_out_box) ->
  (snd (nth i (box_buttons log_out_box) ("", RejectRole)) = RejectRole <->
   log_out (clicked_result (Some i)) s = s) /\
  log_out (clicked_result None) s = s.
Proof.
  intros Hi. split; [|reflexivity].
  destruct i as [|[|[|i]]]; cbn [snd nth box_buttons log_out_box clicked_result length] in Hi |- *;
    try lia; split; intros E; try discriminate; try reflexivity;
    match goal with E : log_out ?r s = s |- _ =>
      destruct (log_out_accepted_changes r s ltac:(auto) E) end.
Qed.

(** C14: Any other non-empty tag is announced as an update, whether it is
    newer or older than the running version: the check compares the tags
    for equality only. *)
Theorem update_about_any_other_tag (latest : string) :
  latest <> "" -> latest <> app_version ->
  update_about app_version latest = mk_about ("Update found: " ++ latest) true true true.
Proof.
  intros H1 H2. unfold update_about.
  rewrite (proj2 (String.eqb_neq _ _) H1), (proj2 (String.eqb_neq _ _) H2). reflexivity.
Qed.

End Handlers.

Section Callbacks.
Context {St : Type} `{SettingsOps St} (window : bool).

Lemma device_actions_fields (n : nat) (ds : list device) :
  map act_id (device_actions n ds) = seq n (length ds) /\
  map act_data (device_actions n ds) = map dev_id ds /\
  map act_text (device_actions n ds) = map dev_name ds /\
  map act_checked (device_actions n ds) = map dev_is_active ds /\
  map act_enabled (device_actions n ds) = map (fun d => negb (dev_is_active d)) ds /\
  Forall (fun a => act_checkable a = true) (device_actions n ds).
Proof.
  revert n. induction ds as [|d ds IH]; intros n; [repeat constructor|].
  destruct (IH (S n)) as (E1 & E2 & E3 & E4 & E5 & F). simpl.
  rewrite E1, E2, E3, E4, E5. repeat split; auto.
Qed.

Lemma device_actions_ids (n : nat) (ds : list device) :
  Forall (fun a => n <= act_id a < n + length ds) (device_actions n ds).
Proof.
  apply Forall_forall. intros a Ha. apply (in_map act_id) in Ha.
  rewrite (proj1 (device_actions_fields n ds)) in Ha. apply in_seq in Ha. lia.
Qed.

(** The devices callback on a live submenu gives every new action a
    fresh identity and leaves the pending calls alone. *)
Lemma on_devices_fresh (ds : list device) (s : menu_state St) (old : list qaction) :
  device_menu s = Some old ->
  exists acts, device_menu (on_devices ds s) = Some acts /\
    pending (on_devices ds s) = pending s /\
    Forall (fun a => next_action s <= act_id a < next_action (on_devices ds s)) acts.
Proof.
  intros Hm. rewrite !on_devices_eq; unfold replace_devices, new_entries. rewrite Hm.
  destruct ds as [|d ds]; eexists; (split; [reflexivity|]); (split; [reflexivity|]).
  - constructor; [simpl; lia | constructor].
  - apply device_actions_ids.
Qed.

(** C7: The devices callback on a live submenu replaces all its entries:
    by one disabled "No devices found" entry when the list is empty, and
    otherwise by one checkable entry per device, in order, with fresh
    identities, carrying the device's name and id, checked and disabled
    exactly when the device is the active one.  Nothing else changes. *)
Theorem on_devices_spec (ds : list device) (s : menu_state St) (old : list qaction) :
  device_menu s = Some old ->
  exists acts, device_menu (on_devices ds s) = Some acts /\
    pending (on_devices ds s) = pending s /\ settings (on_devices ds s) = settings s /\
    Forall (fun a => next_action s <= act_id a < next_action (on_devices ds s)) acts /\
    match ds with
    | [] => exists a, acts = [a] /\ placeholder a
    | _ =>
        map act_data acts = map dev_id ds /\ map act_text acts = map dev_name ds /\
        map act_checked acts = map dev_is_active ds /\
        map act_enabled acts = map (fun d => negb (dev_is_active d)) ds /\
        Forall (fun a => act_checkable a = true) acts
    end.
Proof.
  intros Hm. rewrite !on_devices_eq; unfold replace_devices, new_entries. rewrite Hm.
  destruct ds as [|d ds].
  - eexists; repeat split; [|eexists; repeat split]. constructor; [simpl; lia | constructor].
  - eexists; split; [reflexivity|]. split; [reflexivity|]. split; [reflexivity|].
    destruct (device_actions_fields (next_action s) (d :: ds)) as (E1 & E2 & E3 & E4 & E5 & F).
    split; [apply device_actions_ids | repeat split; assumption].
Qed.

Lemma update_action_spec (id : nat) (f : qaction -> qaction) (P : qaction -> qaction -> Prop)
    (acts : list qaction) :
  (forall a, P a (f a)) ->
  Forall2 (fun a a' => if Nat.eqb (act_id a) id then P a a' else a' = a)
    acts (update_action id f acts).
Proof.
  intros Hf. induction acts as [|a acts IH]; simpl; constructor; [|exact IH].
  destruct (Nat.eqb (act_id a) id); [apply Hf | reflexivity].
Qed.

(** C8: A failed [setDevice] (non-empty status) unchecks the action the
    call was made from and leaves it enabled, and reports "Failed to set
    device: <status>" as an important status message when the main window
    is found; a successful one disables that action and keeps its check
    mark.  Every other action is unchanged. *)
Theorem on_set_device_spec (aid : nat) (st : string) (s : menu_state St) (acts : list qaction) :
  device_menu s = Some acts ->
  exists acts', device_menu (on_set_device window aid st s) = Some acts' /\
    Forall2 (fun a a' =>
      if Nat.eqb (act_id a) aid then
        weaker a a' /\
        (if String.eqb st ""
         then act_enabled a' = false /\ act_checked a' = act_checked a
         else act_enabled a' = act_enabled a /\
              act_checked a' = (if act_checkable a then false else act_checked a))
      else a' = a) acts acts' /\
    status (on_set_device window aid st s) =
      (if String.eqb st "" then status s
       else if window then Some ("Failed to set device: " ++ st, true) else status s).
Proof.
  intros Hm. unfold on_set_device. rewrite Hm.
  destruct (String.eqb st "") eqn:E; simpl; eexists; (split; [reflexivity|]);
    (split; [|reflexivity]); apply update_action_spec; intros a;
    (split; [auto with spt | simpl; auto]).
Qed.

End Callbacks.
