(* ===== verification/MenuLoop.v ===== *)
(** * The event loop of the main menu

    [MainMenu] defines the state and the handlers of the menu; this file
    runs them.  [step] is the Qt event loop as an inductive relation: one
    user action (open the device submenu, click an entry, log out, quit,
    edit the settings) or one callback of a pending Web API call at a time,
    in any order, until the application quits; [reachable] are the states
    it reaches from the constructor.  The theorems here are proved by rule
    induction over [step] ([reachable_ind]): that the submenu shows the last
    reply, the identities of its actions, what a click can send, what a
    late reply can touch, the state after log-out, the order in which
    replies are handled, that a refresh always succeeds, and what a
    switch of device leaves in the submenu; a concrete session ends the
    file. *)

From Stdlib Require Import String List Lia Bool Arith.
From S2P Require Import Prelude Json Settings MainMenu.
Import ListNotations.
Open Scope string_scope.

Section EventLoop.
Context {St : Type} `{SettingsOps St}.
Context (app_version : string) (developer_mode window : bool).

(** The event loop: one event at a time, until the application quits.
    Replies arrive in any order. *)
Inductive step : menu_state St -> menu_state St -> Prop :=
| step_show s :
    quit s = false -> step s (refresh_devices s)
| step_devices s n devices :
    quit s = false -> nth_error (pending s) n = Some CallDevices ->
    step s (on_devices devices (take_pending n s))
| step_trigger s i :
    quit s = false -> step s (trigger i s)
| step_set_device s n aid dev status_text :
    quit s = false -> nth_error (pending s) n = Some (CallSetDevice aid dev) ->
    step s (on_set_device window aid status_text (take_pending n s))
| step_log_out s result :
    quit s = false -> step s (log_out result s)
| step_quit s :
    quit s = false -> step s (quit_app s)
| step_settings s st :
    quit s = false -> step s (settings_edited st s).

Definition reachable (s : menu_state St) : Prop :=
  exists main_window st, star step (main_menu app_version developer_mode main_window st) s.

End EventLoop.

Section LoopInvariant.
Context {St : Type} `{SettingsOps St} (window : bool).

Lemma step_menu_inv (s s' : menu_state St) :
  step window s s' -> menu_inv s -> menu_inv s'.
Proof.
  intros Hs Hinv. destruct Hs.
  - exact (menu_inv_same _ _ eq_refl eq_refl Hinv).
  - apply on_devices_menu_inv. exact (menu_inv_same _ _ eq_refl eq_refl Hinv).
  - now apply trigger_menu_inv.
  - apply on_set_device_menu_inv. exact (menu_inv_same _ _ eq_refl eq_refl Hinv).
  - destruct result; try exact Hinv; exact (menu_inv_same _ _ eq_refl eq_refl Hinv).
  - exact (menu_inv_same _ _ eq_refl eq_refl Hinv).
  - exact (menu_inv_same _ _ eq_refl eq_refl Hinv).
Qed.

End LoopInvariant.

(** ** Reachable states *)

Section Reachable.
Context {St : Type} `{SettingsLaws St}.
Context (app_version : string) (developer_mode window : bool).

Lemma In_remove_nth {A} (x : A) (n : nat) (l : list A) : In x (remove_nth n l) -> In x l.
Proof.
  revert n. induction l as [|y l IH]; intros [|n]; simpl; auto.
  intros [-> | Hx]; eauto.
Qed.

Lemma update_action_absent (id : nat) (f : qaction -> qaction) (acts : list qaction) :
  Forall (fun a => act_id a <> id) acts -> update_action id f acts = acts.
Proof.
  induction 1 as [|a acts Ha _ IH]; simpl; [reflexivity|].
  rewrite IH. destruct (Nat.eqb_spec (act_id a) id); [contradiction | reflexivity].
Qed.

Lemma infos_on_devices (ds : list device) (s : menu_state St) :
  infos (on_devices ds s) = infos s /\ quit (on_devices ds s) = quit s.
Proof. rewrite !on_devices_eq; unfold replace_devices, new_entries. destruct (device_menu s); [destruct ds|]; auto. Qed.

Lemma infos_trigger (i : nat) (s : menu_state St) :
  infos (trigger i s) = infos s /\ quit (trigger i s) = quit s.
Proof.
  unfold trigger. destruct (device_menu s); [|auto].
  destruct (nth_error l i); [|auto]. destruct (act_enabled q); auto.
Qed.

Lemma infos_on_set_device (aid : nat) (st : string) (s : menu_state St) :
  infos (on_set_device window aid st s) = infos s /\ quit (on_set_device window aid st s) = quit s.
Proof. unfold on_set_device. destruct (negb _); auto. Qed.

Lemma reachable_star (s s' : menu_state St) :
  reachable app_version developer_mode window s -> star (step window) s s' ->
  reachable app_version developer_mode window s'.
Proof. intros (w & st & Hs) Hs'. exists w, st. eauto using star_trans. Qed.

(** Rule induction over the event loop. *)
Lemma reachable_ind (P : menu_state St -> Prop) :
  (forall w st, P (main_menu app_version developer_mode w st)) ->
  (forall s s', P s -> step window s s' -> P s') ->
  forall s, reachable app_version developer_mode window s -> P s.
Proof.
  intros Hinit Hstep s (w & st & Hs). eapply star_invariant; [exact Hstep | exact Hs | apply Hinit].
Qed.

Lemma menu_inv_reachable (s : menu_state St) :
  reachable app_version developer_mode window s -> menu_inv s.
Proof.
  apply reachable_ind; [|intros ? ? ? ?; eapply step_menu_inv; eauto].
  intros w st. exists []. split; reflexivity.
Qed.

(** C5: In every state the event loop can reach, the device submenu
    exists (so the null check in the devices callback never fires) and
    shows the last devices reply handled, recorded in the ghost field
    [shown]: no entry before the first reply, the lone disabled "No
    devices found" entry for an empty reply, and otherwise one entry per
    device of that reply, in order, carrying its name and id, checkable,
    and disabled when the device was active in that reply. *)
Theorem reachable_menu_inv (s : menu_state St) :
  reachable app_version developer_mode window s ->
  exists acts, device_menu s = Some acts /\ menu_shows (shown s) acts.
Proof. intros Hr. exact (menu_inv_reachable s Hr). Qed.

(** C6: A click in the device submenu sends [setDevice] only for an
    enabled entry, and the device it names is the device at that position
    in the reply the submenu was built from, which was not active in that
    reply. *)
Theorem trigger_sends_only_inactive (s : menu_state St) (acts : list qaction)
    (i : nat) (a : qaction) :
  reachable app_version developer_mode window s ->
  device_menu s = Some acts -> nth_error acts i = Some a ->
  pending (trigger i s) <> pending s ->
  act_enabled a = true /\
  exists ds d, shown s = Some ds /\ nth_error ds i = Some d /\
    dev_is_active d = false /\
    pending (trigger i s) = (pending s ++ [CallSetDevice (act_id a) (dev_id d)])%list.
Proof.
  intros Hr Hm Hi Hp. destruct (menu_inv_reachable s Hr) as (acts' & Hm' & Hok).
  rewrite Hm in Hm'. injection Hm' as <-.
  unfold trigger in *. rewrite Hm, Hi in *.
  destruct (act_enabled a) eqn:He; [|contradiction]. split; [reflexivity|].
  destruct (shown s) as [[|d0 ds]|] eqn:Hsh; cbn [menu_shows] in Hok.
  - destruct Hok as (b & -> & Hb). destruct i as [|[|i]]; simpl in Hi; try discriminate.
    injection Hi as ->. destruct Hb as (_ & _ & Hb). congruence.
  - destruct (Forall2_nth_error_r _ _ _ _ _ Hok Hi) as (d & Hd & Hmir).
    destruct Hmir as (_ & Hdata & _ & Hact).
    exists (d0 :: ds), d. split; [reflexivity|]. split; [exact Hd|].
    split; [destruct (dev_is_active d); [now rewrite (Hact eq_refl) in He | reflexivity]|].
    simpl. now rewrite <- Hdata.
  - subst acts. destruct i; discriminate.
Qed.

Definition logged_out_ok (s : menu_state St) : Prop :=
  In logged_out_info (infos s) ->
  quit s = true /\ tokens (settings s) = ("", "") /\
  persisted (settings s) = (client (settings s), tokens (settings s)).

Lemma logged_out_ok_same (s s' : menu_state St) :
  logged_out_ok s -> quit s = false -> infos s' = infos s -> logged_out_ok s'.
Proof. intros Hok Hq E Hin. rewrite E in Hin. destruct (Hok Hin) as [Hq' _]. congruence. Qed.

Lemma log_out_logged_out (r : dialog_result) (s : menu_state St) :
  r = ClearEverything \/ r = OnlyLogOut ->
  quit (log_out r s) = true /\ tokens (settings (log_out r s)) = ("", "") /\
  persisted (settings (log_out r s)) =
    (client (settings (log_out r s)), tokens (settings (log_out r s))).
Proof.
  intros [-> | ->]; unfold log_out; cbn [settings quit];
    rewrite persisted_save, client_save, tokens_save, tokens_remove_tokens; repeat split.
Qed.

Lemma step_logged_out_ok (s s' : menu_state St) :
  logged_out_ok s -> step window s s' -> logged_out_ok s'.
Proof.
  intros Hok Hs. destruct Hs as [s Hq|s n ds Hq _|s i Hq|s n aid dev st Hq _|s r Hq|s Hq|s st Hq];
    try (eapply logged_out_ok_same; [exact Hok | exact Hq | reflexivity]).
  - eapply logged_out_ok_same; [exact Hok | exact Hq | exact (proj1 (infos_on_devices ds (take_pending n s)))].
  - eapply logged_out_ok_same; [exact Hok | exact Hq | apply (proj1 (infos_trigger _ _))].
  - eapply logged_out_ok_same; [exact Hok | exact Hq | exact (proj1 (infos_on_set_device aid st (take_pending n s)))].
  - assert (Hr : r = ClearEverything \/ r = OnlyLogOut \/ r = Cancel \/ r = Closed)
      by (destruct r; auto).
    destruct Hr as [Hr | [Hr | [-> | ->]]]; [| | exact Hok | exact Hok].
    all: intros _; apply log_out_logged_out; auto.
Qed.

(** C10: Once the "Logged out" box has been shown, the application has quit
    (no further event is handled), the tokens are gone, and the file on
    disk holds exactly the settings in memory. *)
Theorem logged_out_final (s : menu_state St) :
  reachable app_version developer_mode window s ->
  In logged_out_info (infos s) ->
  quit s = true /\ tokens (settings s) = ("", "") /\
  persisted (settings s) = (client (settings s), tokens (settings s)).
Proof.
  apply (reachable_ind logged_out_ok); [|exact step_logged_out_ok].
  intros w st Hin. contradiction Hin.
Qed.

Definition call_below (n : nat) (c : call) : Prop :=
  match c with
  | CallSetDevice aid _ => aid < n
  | CallDevices => True
  end.

(** Every action and every captured action pointer has an identity below
    the next one to be created. *)
Definition ids_ok (s : menu_state St) : Prop :=
  Forall (call_below (next_action s)) (pending s) /\
  forall acts, device_menu s = Some acts -> Forall (fun a => act_id a < next_action s) acts.

Lemma Forall_remove_nth {A} (P : A -> Prop) (n : nat) (l : list A) :
  Forall P l -> Forall P (remove_nth n l).
Proof.
  intros HP. apply Forall_forall. intros x Hx. apply In_remove_nth in Hx.
  now apply (proj1 (Forall_forall P l) HP).
Qed.

Lemma call_below_mono (n m : nat) (c : call) : n <= m -> call_below n c -> call_below m c.
Proof. destruct c; simpl; auto; lia. Qed.

Lemma Forall2_weaker_ids (n : nat) (acts acts' : list qaction) :
  Forall2 weaker acts acts' -> Forall (fun a => act_id a < n) acts ->
  Forall (fun a => act_id a < n) acts'.
Proof.
  induction 1 as [|a a' acts acts' (W & _) _ IH]; intros F; inversion F; subst;
    constructor; [congruence | auto].
Qed.

Lemma ids_ok_same (s s' : menu_state St) :
  ids_ok s -> pending s' = pending s -> next_action s' = next_action s ->
  device_menu s' = device_menu s -> ids_ok s'.
Proof. intros [Hp Hm] E1 E2 E3. split; [congruence|]. rewrite E2, E3. exact Hm. Qed.

Lemma ids_ok_on_devices (ds : list device) (s : menu_state St) :
  ids_ok s -> ids_ok (on_devices ds s).
Proof.
  intros [Hp Hm]. destruct (device_menu s) as [old|] eqn:E.
  - destruct (on_devices_fresh ds s old E) as (acts & Ha & Hpend & Hids).
    assert (Hn : next_action s <= next_action (on_devices ds s))
      by (rewrite !on_devices_eq; unfold replace_devices, new_entries; rewrite E; destruct ds; simpl; lia).
    split.
    + rewrite Hpend. eapply Forall_impl; [|exact Hp]. intros c; now apply call_below_mono.
    + intros acts' Ha'. rewrite Ha in Ha'. injection Ha' as <-.
      eapply Forall_impl; [|exact Hids]. simpl; lia.
  - rewrite !on_devices_eq; unfold replace_devices, new_entries. rewrite E. split; [exact Hp | intros acts E2; congruence].
Qed.

Lemma ids_ok_trigger (i : nat) (s : menu_state St) : ids_ok s -> ids_ok (trigger i s).
Proof.
  intros Hok. unfold trigger. destruct (device_menu s) as [acts|] eqn:E; [|exact Hok].
  destruct (nth_error acts i) as [a|] eqn:Hi; [|exact Hok].
  destruct (act_enabled a); [|exact Hok].
  destruct Hok as [Hp Hm]. specialize (Hm acts E). split; simpl.
  - apply Forall_app. split; [exact Hp|]. constructor; [|constructor].
    simpl. apply (proj1 (Forall_forall _ acts) Hm a). eapply nth_error_In; eauto.
  - intros acts' E'. injection E' as <-.
    eapply Forall2_weaker_ids; [|exact Hm]. eauto using replace_nth_weaker, toggle_weaker.
Qed.

Lemma ids_ok_on_set_device (aid : nat) (st : string) (s : menu_state St) :
  ids_ok s -> ids_ok (on_set_device window aid st s).
Proof.
  intros [Hp Hm]. unfold on_set_device.
  destruct (negb _); split; simpl; auto; intros acts' E';
    destruct (device_menu s) as [acts|]; simpl in E'; try discriminate;
    injection E' as <-; eapply Forall2_weaker_ids; eauto with spt.
Qed.

Lemma step_ids_ok (s s' : menu_state St) : ids_ok s -> step window s s' -> ids_ok s'.
Proof.
  intros Hok Hs. destruct Hs as [s Hq|s n ds Hq _|s i Hq|s n aid dev st Hq _|s r Hq|s Hq|s st Hq].
  - destruct Hok as [Hp Hm]. split; [|exact Hm]. simpl.
    apply Forall_app. split; [exact Hp | repeat constructor].
  - apply ids_ok_on_devices. destruct Hok as [Hp Hm].
    split; [apply Forall_remove_nth, Hp | exact Hm].
  - now apply ids_ok_trigger.
  - apply ids_ok_on_set_device. destruct Hok as [Hp Hm].
    split; [apply Forall_remove_nth, Hp | exact Hm].
  - destruct r; try exact Hok; eapply ids_ok_same; eauto.
  - eapply ids_ok_same; eauto.
  - eapply ids_ok_same; eauto.
Qed.

Lemma reachable_ids_ok (s : menu_state St) :
  reachable app_version developer_mode window s -> ids_ok s.
Proof.
  intros Hr. refine (reachable_ind ids_ok _ step_ids_ok s Hr).
  intros w st0. split; [constructor | intros acts E; injection E as <-; constructor].
Qed.

(** A pending set-device call names an action created before. *)
Lemma reachable_pending_below (s : menu_state St) (aid : nat) (dev : string) :
  reachable app_version developer_mode window s ->
  In (CallSetDevice aid dev) (pending s) -> aid < next_action s.
Proof.
  intros Hr Hin. destruct (reachable_ids_ok s Hr) as [Hp _].
  exact (proj1 (Forall_forall _ _) Hp _ Hin).
Qed.

(** C11: A [setDevice] reply that arrives after the device list has been
    rebuilt acts on an action pointer that is no longer in the submenu: it
    leaves the rebuilt submenu unchanged. *)
Theorem stale_set_device_reply (s : menu_state St) (n : nat) (ds : list device)
    (aid : nat) (dev st : string) :
  reachable app_version developer_mode window s ->
  nth_error (pending s) n = Some CallDevices ->
  In (CallSetDevice aid dev) (pending s) ->
  let s1 := on_devices ds (take_pending n s) in
  device_menu (on_set_device window aid st s1) = device_menu s1.
Proof.
  intros Hr Hn Hin s1.
  pose proof (reachable_pending_below s aid dev Hr Hin) as Haid.
  destruct (menu_inv_reachable s Hr) as (old & Hm & _).
  destruct (on_devices_fresh ds (take_pending n s) old Hm) as (acts & Ha & _ & Hf).
  assert (Hne : Forall (fun a => act_id a <> aid) acts).
  { apply Forall_forall. intros a Ha'.
    pose proof (proj1 (Forall_forall _ _) Hf a Ha') as Hb. simpl in Hb. lia. }
  unfold on_set_device. subst s1.
  destruct (negb _); simpl; rewrite Ha; simpl; now rewrite update_action_absent.
Qed.

(** C24: A set-device reply and a devices reply that are both outstanding
    lead to the same state whichever is handled first: the rebuilt submenu
    never shows the effect of the set-device reply, and the status bar
    reports its failure either way. *)
Theorem set_device_devices_commute (s : menu_state St) (aid : nat) (dev st : string)
    (ds : list device) :
  reachable app_version developer_mode window s ->
  In (CallSetDevice aid dev) (pending s) ->
  on_set_device window aid st (on_devices ds s) = on_devices ds (on_set_device window aid st s).
Proof.
  intros Hr Hin. pose proof (reachable_pending_below s aid dev Hr Hin) as Haid.
  destruct (device_menu s) as [old|] eqn:Hm.
  - rewrite !on_devices_eq; unfold on_set_device, replace_devices, new_entries. rewrite Hm.
    destruct (negb _), ds as [|d ds]; cbn [device_menu option_map next_action];
      f_equal; f_equal; apply update_action_absent.
    all: first [ repeat constructor; simpl; lia
               | eapply Forall_impl; [|apply device_actions_ids]; simpl; lia ].
  - rewrite !on_devices_eq; unfold on_set_device, replace_devices, new_entries. rewrite Hm. destruct (negb _); cbn; rewrite Hm; reflexivity.
Qed.

(** The status bar holds nothing, or the report of a failed [setDevice]
    with the non-empty error text of the reply. *)
Definition status_ok (s : menu_state St) : Prop :=
  status s = None \/
  exists m, m <> "" /\ status s = Some ("Failed to set device: " ++ m, true).

Lemma status_on_devices (ds : list device) (s : menu_state St) :
  status (on_devices ds s) = status s.
Proof. rewrite !on_devices_eq; unfold replace_devices, new_entries. destruct (device_menu s); [destruct ds|]; reflexivity. Qed.

Lemma status_trigger (i : nat) (s : menu_state St) : status (trigger i s) = status s.
Proof.
  unfold trigger. destruct (device_menu s); [|reflexivity].
  destruct (nth_error l i); [|reflexivity]. destruct (act_enabled q); reflexivity.
Qed.

Lemma status_log_out (r : dialog_result) (s : menu_state St) : status (log_out r s) = status s.
Proof. destruct r; reflexivity. Qed.

Lemma step_status_ok (s s' : menu_state St) : status_ok s -> step window s s' -> status_ok s'.
Proof.
  intros Hok Hs. destruct Hs as [s Hq|s n ds Hq _|s i Hq|s n aid dev st Hq _|s r Hq|s Hq|s st Hq].
  - exact Hok.
  - unfold status_ok. rewrite status_on_devices. exact Hok.
  - unfold status_ok. rewrite status_trigger. exact Hok.
  - unfold status_ok, on_set_device. destruct (String.eqb_spec st "") as [E|E]; simpl; [exact Hok|].
    destruct window; [right; exists st; split; [exact E | reflexivity] | exact Hok].
  - unfold status_ok. rewrite status_log_out. exact Hok.
  - exact Hok.
  - exact Hok.
Qed.

(** C25: The status bar is only ever used for one message: in every
    reachable state it is empty or reports "Failed to set device: <e>",
    marked important, with the non-empty error text [e] of a [setDevice]
    reply; a successful reply or any other event never writes to it. *)
Theorem reachable_status (s : menu_state St) :
  reachable app_version developer_mode window s ->
  status s = None \/
  exists m, m <> "" /\ status s = Some ("Failed to set device: " ++ m, true).
Proof.
  apply (reachable_ind status_ok); [|exact step_status_ok].
  intros w st. now left.
Qed.

End Reachable.

(** ** Refreshing the submenu *)

Section Ordering.
Context {St : Type} `{SettingsLaws St}.
Context (app_version : string) (developer_mode window : bool).

(** What an action shows, apart from its identity. *)
Definition action_view (a : qaction) : string * bool * bool * bool * string :=
  (act_text a, act_checkable a, act_checked a, act_enabled a, act_data a).

Lemma device_actions_view (n m : nat) (ds : list device) :
  map action_view (device_actions n ds) = map action_view (device_actions m ds).
Proof. revert n m. induction ds as [|d ds IH]; intros n m; simpl; [|rewrite (IH (S n) (S m))]; reflexivity. Qed.

Lemma new_entries_view (n m : nat) (ds : list device) :
  map action_view (fst (new_entries n ds)) = map action_view (fst (new_entries m ds)).
Proof. destruct ds; [reflexivity|]. apply device_actions_view. Qed.

(** Opening the submenu and answering that request, from any running
    state. *)
Lemma refresh_run (s : menu_state St) (ds : list device) :
  quit s = false ->
  star (step window) s (on_devices ds (take_pending (length (pending s)) (refresh_devices s))).
Proof.
  intros Hq. eapply star_step; [apply step_show; exact Hq|].
  eapply star_step; [|apply star_refl].
  apply step_devices; [exact Hq|]. cbn [pending refresh_devices].
  rewrite nth_error_app2, Nat.sub_diag by lia. reflexivity.
Qed.

(** C27: A refresh always brings the submenu up to date: from every
    reachable state in which the application still runs, whatever clicks
    and replies came before, opening the device submenu and the reply to
    that request lead to a state whose submenu shows exactly the entries
    of that reply. *)
Theorem refresh_recovers (s : menu_state St) (ds : list device) :
  reachable app_version developer_mode window s -> quit s = false ->
  exists s', star (step window) s s' /\
    option_map (map action_view) (device_menu s') =
    Some (map action_view (fst (new_entries 0 ds))).
Proof.
  intros Hr Hq. eexists. split; [exact (refresh_run s ds Hq)|].
  destruct (menu_inv_reachable app_version developer_mode window s Hr) as (old & Hm & _).
  rewrite on_devices_eq. unfold replace_devices. cbn [device_menu next_action take_pending refresh_devices].
  rewrite Hm. cbn [next_action]. destruct (new_entries (next_action s) ds) as [acts next] eqn:E.
  cbn [device_menu option_map]. f_equal.
  rewrite <- (new_entries_view (next_action s)), E. reflexivity.
Qed.

End Ordering.

(** ** Switching to another device *)

Section Switching.
Context {St : Type} `{SettingsLaws St}.
Context (app_version : string) (developer_mode window : bool).

Lemma weaker_ids (acts acts' : list qaction) :
  Forall2 weaker acts acts' -> map act_id acts' = map act_id acts.
Proof. induction 1 as [|a a' acts acts' (W & _) _ IH]; simpl; congruence. Qed.

(** The actions of the submenu have pairwise distinct identities. *)
Definition ids_distinct (s : menu_state St) : Prop :=
  forall acts, device_menu s = Some acts -> NoDup (map act_id acts).

Lemma ids_distinct_weaker (s s' : menu_state St) (acts : list qaction) :
  device_menu s = Some acts -> ids_distinct s ->
  (forall acts', device_menu s' = Some acts' -> Forall2 weaker acts acts') -> ids_distinct s'.
Proof. intros Hm Hd W acts' E. rewrite (weaker_ids _ _ (W acts' E)). now apply Hd. Qed.

Lemma ids_distinct_on_devices (ds : list device) (s : menu_state St) :
  ids_distinct (on_devices ds s).
Proof.
  intros acts E. rewrite on_devices_eq in E. unfold replace_devices, new_entries in E.
  destruct (device_menu s) eqn:Hm; [|congruence].
  destruct ds as [|d ds]; injection E as <-.
  - repeat constructor. intros [].
  - change (NoDup (map act_id (device_actions (next_action s) (d :: ds)))).
    rewrite (proj1 (device_actions_fields (next_action s) (d :: ds))). apply seq_NoDup.
Qed.

Lemma step_ids_distinct (s s' : menu_state St) :
  ids_distinct s -> step window s s' -> ids_distinct s'.
Proof.
  intros Hd Hs. destruct Hs as [s Hq|s n ds Hq _|s i Hq|s n aid dev st Hq _|s r Hq|s Hq|s st Hq];
    try exact Hd; try apply ids_distinct_on_devices.
  - unfold trigger. destruct (device_menu s) as [acts|] eqn:Hm; [|exact Hd].
    destruct (nth_error acts i) as [a|] eqn:Hi; [|exact Hd].
    destruct (act_enabled a); [|exact Hd].
    apply (ids_distinct_weaker s _ acts Hm Hd). intros acts' E. injection E as <-.
    eauto using replace_nth_weaker, toggle_weaker.
  - destruct (device_menu s) as [acts|] eqn:Hm.
    + apply (ids_distinct_weaker (take_pending n s) _ acts Hm Hd). intros acts' E.
      unfold on_set_device in E. cbn [device_menu take_pending] in E. rewrite Hm in E.
      destruct (negb _); injection E as <-; auto with spt.
    + intros acts' E. unfold on_set_device in E. cbn [device_menu take_pending] in E.
      rewrite Hm in E. destruct (negb _); discriminate.
  - destruct r; exact Hd.
Qed.

Lemma reachable_ids_nodup (s : menu_state St) (acts : list qaction) :
  reachable app_version developer_mode window s -> device_menu s = Some acts ->
  NoDup (map act_id acts).
Proof.
  intros Hr. revert acts.
  refine (reachable_ind app_version developer_mode window ids_distinct _ step_ids_distinct s Hr).
  intros w st acts E. injection E as <-. constructor.
Qed.

(** An entry that can be clicked belongs to a device of the last reply,
    so it is checkable. *)
Lemma reachable_enabled_checkable (s : menu_state St) (acts : list qaction) (i : nat)
    (a : qaction) :
  reachable app_version developer_mode window s -> device_menu s = Some acts ->
  nth_error acts i = Some a -> act_enabled a = true -> act_checkable a = true.
Proof.
  intros Hr Hm Hi He. destruct (menu_inv_reachable app_version developer_mode window s Hr)
    as (acts' & Hm' & Hok). rewrite Hm in Hm'. injection Hm' as <-.
  destruct (shown s) as [[|d ds]|]; cbn [menu_shows] in Hok.
  - destruct Hok as (b & -> & _ & _ & Hb). destruct i as [|[|i]]; simpl in Hi; try discriminate.
    injection Hi as ->. congruence.
  - destruct (Forall2_nth_error_r _ _ _ _ _ Hok Hi) as (d' & _ & (_ & _ & Hc & _)). exact Hc.
  - subst acts. destruct i; discriminate.
Qed.

Lemma nth_error_replace_nth {A} (i j : nat) (x : A) (l : list A) :
  nth_error (replace_nth i x l) j =
  if Nat.eqb i j then option_map (fun _ => x) (nth_error l j) else nth_error l j.
Proof.
  revert i j. induction l as [|y l IH]; intros [|i] [|j]; cbn [replace_nth nth_error];
    rewrite ?IH; try reflexivity; now destruct (Nat.eqb _ _).
Qed.

Lemma nth_error_update_action (id : nat) (f : qaction -> qaction) (acts : list qaction) (k : nat) :
  nth_error (update_action id f acts) k =
  option_map (fun a => if Nat.eqb (act_id a) id then f a else a) (nth_error acts k).
Proof. apply nth_error_map. Qed.

(** C28: Switching devices leaves the old selection in place: from a
    reachable running state, the user opens the device submenu and clicks
    an enabled, unchecked entry, and the set-device reply reports success;
    in the resulting submenu every other entry is exactly as it was (the
    previously active device stays checked and disabled) and the clicked
    entry is checked and disabled too, until a new device list arrives. *)
Theorem switch_keeps_old_selection (s : menu_state St) (acts : list qaction) (i j : nat)
    (a b : qaction) :
  reachable app_version developer_mode window s -> quit s = false ->
  device_menu s = Some acts -> nth_error acts i = Some a -> nth_error acts j = Some b ->
  i <> j -> act_enabled a = true -> act_checked a = false ->
  let s' := on_set_device window (act_id a) ""
              (take_pending (S (length (pending s))) (trigger i (refresh_devices s))) in
  star (step window) s s' /\
  exists acts', device_menu s' = Some acts' /\ nth_error acts' j = Some b /\
    exists a', nth_error acts' i = Some a' /\ act_id a' = act_id a /\
      act_checked a' = true /\ act_enabled a' = false.
Proof.
  intros Hr Hq Hm Hi Hj Hij He Hc s'.
  pose proof (reachable_ids_nodup s acts Hr Hm) as Hnd.
  pose proof (reachable_enabled_checkable s acts i a Hr Hm Hi He) as Hck.
  assert (Hid : act_id b <> act_id a).
  { intros E. apply Hij. apply (proj1 (NoDup_nth_error _) Hnd).
    - rewrite length_map. apply nth_error_Some. congruence.
    - rewrite !nth_error_map, Hi, Hj. cbn. now rewrite E. }
  assert (Ht : trigger i (refresh_devices s) =
            device_selected (toggle a)
              (mk_state (entries s) (about s) (Some (replace_nth i (toggle a) acts))
                 (next_action s) (settings s) (status s) (infos s) (quit s)
                 (pending s ++ [CallDevices]) (shown s))).
  { unfold trigger. cbn [device_menu refresh_devices]. now rewrite Hm, Hi, He. }
  split.
  - eapply star_step; [apply step_show; exact Hq|].
    eapply star_step; [apply step_trigger; exact Hq|].
    eapply star_step; [|apply star_refl].
    apply (step_set_device window _ (S (length (pending s))) (act_id a) (act_data a) "").
    + rewrite Ht. exact Hq.
    + rewrite Ht. cbn [pending device_selected]. rewrite <- app_assoc.
      rewrite nth_error_app2 by lia. replace (S (length (pending s)) - length (pending s)) with 1 by lia.
      reflexivity.
  - subst s'. unfold on_set_device. rewrite Ht. cbn [negb String.eqb device_menu take_pending device_selected option_map].
    eexists. split; [reflexivity|]. split.
    + rewrite nth_error_update_action, nth_error_replace_nth.
      destruct (Nat.eqb_spec i j); [contradiction|]. rewrite Hj. cbn [option_map].
      destruct (Nat.eqb_spec (act_id b) (act_id a)); [contradiction | reflexivity].
    + rewrite nth_error_update_action, nth_error_replace_nth, Nat.eqb_refl, Hi.
      cbn [option_map]. eexists. split; [reflexivity|].
      unfold toggle, set_checked, set_disabled. cbn; rewrite ?Nat.eqb_refl, ?Hck, ?Hc; cbn; rewrite ?Hck; repeat split.

Qed.

End Switching.

(** ** A concrete session *)

Module Scenario.

Definition st0 : lib_settings :=
  mk_lib_settings (mk_account "cid" "secret" "access" "refresh")
                  (mk_account "cid" "secret" "access" "refresh").
Definition phone : device := mk_device "d1" "Phone" true.
Definition laptop : device := mk_device "d2" "Laptop" false.

(** Built without a main window, then: the device submenu opens, the
    device list arrives, the laptop entry is clicked (which closes the
    menu), the submenu is opened again, and the set-device reply reports
    success before the new device list arrives. *)
Definition s0 := main_menu "v3.5" false None st0.
Definition s1 := refresh_devices s0.
Definition s2 := on_devices [phone; laptop] (take_pending 0 s1).
Definition s3 := trigger 1 s2.
Definition s4 := refresh_devices s3.
Definition s5 := on_set_device true 1 "" (take_pending 0 s4).

Lemma s2_reachable : reachable "v3.5" false true s2.
Proof.
  exists None, st0.
  eapply star_step; [apply step_show; reflexivity|].
  eapply star_step; [eapply (step_devices true _ 0 [phone; laptop]); reflexivity|].
  apply star_refl.
Defined.

Lemma s5_reachable : reachable "v3.5" false true s5.
Proof.
  eapply reachable_star; [exact s2_reachable|].
  eapply star_step; [apply (step_trigger true s2 1); reflexivity|].
  eapply star_step; [apply step_show; reflexivity|].
  eapply star_step; [eapply (step_set_device true _ 0 1 "d2" ""); reflexivity|].
  apply star_refl.
Qed.

End Scenario.

Import Scenario.

(** ** Witnesses *)

Lemma s3_reachable : reachable "v3.5" false true s3.
Proof.
  eapply reachable_star; [exact s2_reachable|].
  eapply star_step; [apply (step_trigger true s2 1); reflexivity | apply star_refl].
Defined.

Lemma log_out_confirmed_witness :
  tokens (settings (log_out OnlyLogOut s2)) = ("", "") /\
  client (settings (log_out OnlyLogOut s2)) = ("cid", "secret").
Proof.
  destruct (log_out_confirmed OnlyLogOut s2 (or_intror eq_refl)) as (T & C & _).
  split; [exact T | exact C].
Defined.

Lemma update_about_hidden_witness : ab_visible (update_about "v3.5" "v3.5") = false.
Proof. exact (proj1 (update_about_hidden "v3.5" "v3.5" (or_intror eq_refl))). Defined.

(** The running version is newer than the latest release, yet an update
    is announced. *)
Lemma update_about_any_other_tag_witness :
  update_about "v3.5" "v3.4" = mk_about "Update found: v3.4" true true true.
Proof.
  exact (update_about_any_other_tag "v3.5" "v3.4" ltac:(discriminate) ltac:(discriminate)).
Defined.

Lemma on_devices_spec_witness :
  exists acts, device_menu s2 = Some acts /\
    map act_enabled acts = [false; true].
Proof.
  destruct (on_devices_spec [phone; laptop] (take_pending 0 s1) [] eq_refl)
    as (acts & Ha & _ & _ & _ & _ & _ & _ & E & _).
  exists acts. split; [exact Ha | exact E].
Defined.

Lemma on_set_device_spec_witness :
  status (on_set_device true 1 "Device not found" s3) =
  Some ("Failed to set device: Device not found", true).
Proof.
  destruct (on_set_device_spec true 1 "Device not found" s3 _ eq_refl) as (_ & _ & _ & E).
  exact E.
Defined.

Lemma reachable_menu_inv_witness : menu_inv s2.
Proof. exact (reachable_menu_inv "v3.5" false true s2 s2_reachable). Defined.

Lemma trigger_sends_only_inactive_witness :
  exists ds d, nth_error ds 1 = Some d /\ dev_is_active d = false.
Proof.
  destruct (trigger_sends_only_inactive "v3.5" false true s2 _ 1
              (mk_qaction 1 "Laptop" true false true "d2")
              s2_reachable eq_refl eq_refl ltac:(discriminate))
    as (_ & ds & d & _ & Hd & Ha & _).
  exists ds, d. split; [exact Hd | exact Ha].
Defined.

Lemma logged_out_final_witness :
  persisted (settings (log_out OnlyLogOut s2)) = (("cid", "secret"), ("", "")).
Proof.
  assert (Hr : reachable "v3.5" false true (log_out OnlyLogOut s2)).
  { eapply reachable_star; [exact s2_reachable|].
    eapply star_step; [apply step_log_out; reflexivity | apply star_refl]. }
  destruct (logged_out_final "v3.5" false true _ Hr ltac:(simpl; auto)) as (_ & T & P).
  rewrite P, T. reflexivity.
Defined.

Lemma stale_set_device_reply_witness :
  device_menu (on_set_device true 1 "" (on_devices [laptop] (take_pending 1 (refresh_devices s3)))) =
  device_menu (on_devices [laptop] (take_pending 1 (refresh_devices s3))).
Proof.
  assert (Hr : reachable "v3.5" false true (refresh_devices s3)).
  { eapply reachable_star; [exact s3_reachable|].
    eapply star_step; [apply step_show; reflexivity | apply star_refl]. }
  exact (stale_set_device_reply "v3.5" false true (refresh_devices s3) 1 [laptop] 1 "d2" ""
           Hr eq_refl ltac:(simpl; auto)).
Defined.

Lemma about_clicked_spec_witness :
  about_clicked (about (main_menu "v3.5" false (Some (JObject [("tag_name", JString "v3.6")])) st0)) =
  Some release_page_url.
Proof. rewrite about_clicked_spec. reflexivity. Defined.

Lemma log_out_box_roles_witness : log_out (clicked_result (Some 2)) s2 = s2.
Proof. exact (proj1 (proj1 (log_out_box_roles s2 2 ltac:(simpl; lia))) eq_refl). Defined.

Lemma set_device_devices_commute_witness :
  on_set_device true 1 "Device not found" (on_devices [laptop] s3) =
  on_devices [laptop] (on_set_device true 1 "Device not found" s3).
Proof.
  exact (set_device_devices_commute "v3.5" false true s3 1 "d2" "Device not found" [laptop]
           s3_reachable ltac:(simpl; auto)).
Defined.

Lemma reachable_status_witness :
  status (on_set_device true 1 "Device not found" s3) =
  Some ("Failed to set device: Device not found", true) /\
  exists m, m <> "" /\
    status (on_set_device true 1 "Device not found" s3) = Some ("Failed to set device: " ++ m, true).
Proof.
  split; [reflexivity|].
  assert (Hr : reachable "v3.5" false true (on_set_device true 1 "Device not found" (take_pending 0 s3))).
  { eapply reachable_star; [exact s3_reachable|].
    eapply star_step; [eapply (step_set_device true s3 0 1 "d2"); reflexivity | apply star_refl]. }
  destruct (reachable_status "v3.5" false true _ Hr) as [E | (m & Hm & E)]; [discriminate|].
  exists m. split; [exact Hm | exact E].
Defined.

Lemma refresh_recovers_witness :
  exists s', star (step true) s5 s' /\
    option_map (map action_view) (device_menu s') =
    Some [("Laptop", true, false, true, "d2")].
Proof. exact (refresh_recovers "v3.5" false true s5 [laptop] s5_reachable eq_refl). Defined.


Lemma switch_keeps_old_selection_witness :
  exists acts',
    device_menu (on_set_device true 1 "" (take_pending 1 (trigger 1 (refresh_devices s2)))) =
      Some acts' /\
    nth_error acts' 0 = Some (mk_qaction 0 "Phone" true true false "d1").
Proof.
  destruct (switch_keeps_old_selection "v3.5" false true s2 _ 1 0
              (mk_qaction 1 "Laptop" true false true "d2") (mk_qaction 0 "Phone" true true false "d1")
              s2_reachable eq_refl eq_refl eq_refl eq_refl ltac:(discriminate) eq_refl eq_refl)
    as (_ & acts' & E & Ej & _).
  exists acts'. split; [exact E | exact Ej].
Defined.
